(** * ember-apache-echarts: style resolution and bar-chart axis layout

  A shallow embedding of

  - [utils/style/resolve-style.js] ([resolvePercentDimension],
    [resolveStyle]), and
  - [modifiers/bar-chart.js] ([getCategories], [addAxisPointer],
    [computeYAxisInfo], [computeXAxisInfo]),

  together with the JavaScript built-ins those functions call.

  JavaScript numbers are IEEE 754 binary64 values, modelled by Rocq's
  primitive [float]; objects used as property bags are [gmap string _];
  arrays are lists; objects that are passed by reference and written to
  live in an explicit store (module [Heap]). *)

From Stdlib Require Import ZArith Ascii String List Sorting.Permutation.
From Stdlib Require Import Floats.PrimFloat Floats.SpecFloat Floats.FloatOps.
From Stdlib Require Import Floats.FloatAxioms.
From stdpp Require Import gmap strings list sorting.

Set Warnings "-register-all".

(** ** JavaScript built-ins *)

Module JS.

(** *** Strings *)

(** [s.slice(0, -k)]: the string without its last [k] characters (empty
    when it has fewer). *)
Definition slice_end (s : string) (k : nat) : string :=
  String.substring 0 (String.length s - k) s.

(** [s.endsWith(suffix)]. *)
Definition endsWith (s suffix : string) : bool :=
  let n := String.length s in
  let m := String.length suffix in
  (m <=? n) && String.eqb (String.substring (n - m) m s) suffix.

(** *** Regular expressions

    The fragment of the regular-expression language the two patterns of
    [resolve-style.js] are written in.  Both patterns are anchored with
    [^] and [$] and carry no flags, so [RegExp.prototype.test] holds
    exactly when the whole string is in the language of the body. *)
Inductive regex : Type :=
| Void                        (* matches nothing *)
| Eps                         (* the empty string *)
| Chr (c : ascii)             (* a literal character *)
| Digit                       (* \d *)
| Seq (r1 r2 : regex)         (* r1 r2 *)
| Alt (r1 r2 : regex)         (* r1 | r2 *)
| Star (r : regex).           (* r* *)

Definition Opt (r : regex) : regex := Alt r Eps.          (* r? *)
Definition Plus (r : regex) : regex := Seq r (Star r).    (* r+ *)

Definition is_digit (c : ascii) : bool :=
  match Ascii.is_nat c with Some _ => true | None => false end.

Fixpoint nullable (r : regex) : bool :=
  match r with
  | Void => false
  | Eps => true
  | Chr _ => false
  | Digit => false
  | Seq r1 r2 => nullable r1 && nullable r2
  | Alt r1 r2 => nullable r1 || nullable r2
  | Star _ => true
  end.

(** Brzozowski derivative of [r] by the character [c]. *)
Fixpoint deriv (c : ascii) (r : regex) : regex :=
  match r with
  | Void => Void
  | Eps => Void
  | Chr d => if Ascii.eqb c d then Eps else Void
  | Digit => if is_digit c then Eps else Void
  | Seq r1 r2 =>
      if nullable r1
      then Alt (Seq (deriv c r1) r2) (deriv c r2)
      else Seq (deriv c r1) r2
  | Alt r1 r2 => Alt (deriv c r1) (deriv c r2)
  | Star r1 => Seq (deriv c r1) (Star r1)
  end.

(** [/^r$/.test(s)]. *)
Fixpoint test (r : regex) (s : string) : bool :=
  match s with
  | EmptyString => nullable r
  | String c s' => test (deriv c r) s'
  end.

(** The language of a regular expression, declaratively. *)
Inductive lang : regex -> string -> Prop :=
| lang_eps : lang Eps ""
| lang_chr c : lang (Chr c) (String c "")
| lang_digit c : is_digit c = true -> lang Digit (String c "")
| lang_seq r1 r2 s1 s2 : lang r1 s1 -> lang r2 s2 -> lang (Seq r1 r2) (s1 +:+ s2)
| lang_alt_l r1 r2 s : lang r1 s -> lang (Alt r1 r2) s
| lang_alt_r r1 r2 s : lang r2 s -> lang (Alt r1 r2) s
| lang_star_nil r : lang (Star r) ""
| lang_star_cons r s1 s2 : lang r s1 -> lang (Star r) s2 -> lang (Star r) (s1 +:+ s2).

(** The characters a pattern can consume, and those a string holds. *)
Fixpoint alphabet (r : regex) (c : ascii) : bool :=
  match r with
  | Void | Eps => false
  | Chr d => Ascii.eqb c d
  | Digit => is_digit c
  | Seq r1 r2 | Alt r1 r2 => alphabet r1 c || alphabet r2 c
  | Star r1 => alphabet r1 c
  end.

Fixpoint occurs (c : ascii) (s : string) : bool :=
  match s with
  | EmptyString => false
  | String d s' => Ascii.eqb c d || occurs c s'
  end.

(** *** Numbers

    A JavaScript number is a binary64 float; [+], [-], [*] and [/] on
    numbers are the IEEE operations of [PrimFloat]. *)
Definition number : Type := float.
Bind Scope float_scope with number.

Definition SFofZ (neg : bool) (m : Z) : spec_float :=
  match m with
  | Zpos p => S754_finite neg p 0
  | _ => S754_zero neg
  end.

(** The binary64 value nearest to [(-1)^neg * m / 10^k] (ties to even):
    the number a decimal literal with digits [m] and [k] of them after the
    point denotes. *)
Definition decimal (neg : bool) (m : Z) (k : nat) : number :=
  SF2Prim (SFdiv prec emax (SFofZ neg m) (SFofZ false (10 ^ Z.of_nat k))).

(** Reads decimal digits off the front of [s], accumulating their value in
    [m] and their count in [n]. *)
Fixpoint scanDigits (s : string) (m : Z) (n : nat) : Z * nat * string :=
  match s with
  | String c s' =>
      match Ascii.is_nat c with
      | Some d => scanDigits s' (10 * m + Z.of_nat d) (S n)
      | None => (m, n, s)
      end
  | EmptyString => (m, n, s)
  end.

(** The longest prefix of [s] of the form [-?digits(.digits?)?], with the
    number it denotes and the rest of the string.  The two call sites in
    [resolve-style.js] only pass strings that matched one of the two
    dimension patterns with the unit cut off, i.e. such a literal followed
    by nothing or by [%] signs; the other forms the built-ins accept
    (leading white space, [+], [.5], exponents, [Infinity], hexadecimal)
    cannot reach them and are left out. *)
Definition scanDecimal (s : string) : option (number * string) :=
  let '(neg, s1) :=
    match s with
    | String "-" t => (true, t)
    | _ => (false, s)
    end in
  let '(m, n, s2) := scanDigits s1 0 0 in
  if (n =? 0)%nat then None
  else match s2 with
       | String "." s3 =>
           let '(m', k, s4) := scanDigits s3 m 0 in Some (decimal neg m' k, s4)
       | _ => Some (decimal neg m 0, s2)
       end.

(** [parseFloat(s)]: the number of the longest literal prefix, [NaN] when
    there is none. *)
Definition parseFloat (s : string) : number :=
  match scanDecimal s with
  | Some (x, _) => x
  | None => nan
  end.

(** [ToNumber(s)], the coercion [/] applies to a string operand: the whole
    string has to be a literal. *)
Definition toNumber (s : string) : number :=
  match scanDecimal s with
  | Some (x, EmptyString) => x
  | _ => nan
  end.

(** *** Decimal numerals

    The numerals [-?\d+\.?\d*] as data: sign, integer digits (at least
    one), and an optional point with fraction digits. *)
Inductive digit : Type := d0 | d1 | d2 | d3 | d4 | d5 | d6 | d7 | d8 | d9.

Definition digit_char (d : digit) : ascii :=
  match d with
  | d0 => "0" | d1 => "1" | d2 => "2" | d3 => "3" | d4 => "4"
  | d5 => "5" | d6 => "6" | d7 => "7" | d8 => "8" | d9 => "9"
  end%char.

Definition digit_val (d : digit) : Z :=
  match d with
  | d0 => 0 | d1 => 1 | d2 => 2 | d3 => 3 | d4 => 4
  | d5 => 5 | d6 => 6 | d7 => 7 | d8 => 8 | d9 => 9
  end%Z.

Record numeral : Type := Numeral {
  num_neg : bool;
  num_first : digit;
  num_more : list digit;
  num_frac : option (list digit)
}.

Fixpoint digits_string (ds : list digit) : string :=
  match ds with
  | [] => ""
  | d :: ds' => String (digit_char d) (digits_string ds')
  end.

Definition digits_value (ds : list digit) : Z :=
  fold_left (fun m d => (10 * m + digit_val d)%Z) ds 0%Z.

Definition num_int (n : numeral) : list digit := num_first n :: num_more n.

Definition frac_string (f : option (list digit)) : string :=
  match f with
  | None => ""
  | Some ds => String "." (digits_string ds)
  end.

(** The text of a numeral. *)
Definition numeral_string (n : numeral) : string :=
  (if num_neg n then "-" else "") +:+
  digits_string (num_int n) +:+ frac_string (num_frac n).

(** The number a numeral denotes. *)
Definition numeral_value (n : numeral) : number :=
  let f := default [] (num_frac n) in
  decimal (num_neg n) (digits_value (num_int n ++ f)) (length f).

End JS.

(** ** [utils/style/resolve-style.js] *)

Module ResolveStyle.
Import JS.

(** A raw style value as a caller writes it: a number or a string. *)
Inductive value : Type :=
| VNum (n : number)
| VStr (s : string).

(** The sizing context: an object whose [width] and [height] may each be
    missing. *)
Record SizingContext : Type := {
  width : option number;
  height : option number
}.

(** [format-css-style-value.js] and [parse-css-style-value.js] are not
    part of the sources at hand; [resolveStyle] is modelled over any pair
    of them.  The parser yields a property bag of raw token strings. *)
Class StyleCodec : Type := {
  formatCssStyleValue : gmap string value -> string;
  parseCssStyleValue : string -> gmap string string
}.

(** [/^-?\d+\.?\d*\px$/]; in a pattern without the [u] flag the escape
    [\p] is the letter [p]. *)
Definition numberBody : regex :=
  Seq (Opt (Chr "-")) (Seq (Plus Digit) (Seq (Opt (Chr ".")) (Star Digit))).

Definition isPixelDimension : regex :=
  Seq numberBody (Seq (Chr "p") (Chr "x")).

(** [/^-?\d+\.?\d*%+$/]. *)
Definition isPercentDimension : regex :=
  Seq numberBody (Plus (Chr "%")).

Definition resolvePercentDimension
    (value : string) (side : string) (context : option SizingContext) : number :=
  let value := (toNumber (slice_end value 1) / 100)%float in
  if endsWith side "Top" || endsWith side "Bottom"
  then (value * default 1 (context ≫= height))%float
  else (value * default 1 (context ≫= width))%float.

(** The callback [resolveStyle] maps over the parsed style. *)
Definition resolveValue
    (context : option SizingContext) (property : string) (v : string) : value :=
  if test isPixelDimension v
  then VNum (parseFloat (slice_end v 2))
  else if test isPercentDimension v
  then VNum (resolvePercentDimension v property context)
  else VStr v.

Definition resolveStyle `{StyleCodec}
    (style : gmap string value) (context : option SizingContext)
    : gmap string value :=
  let result := parseCssStyleValue (formatCssStyleValue style) in
  map_imap (fun property v => Some (resolveValue context property v)) result.

(** A stand-in for the two missing modules in closed examples: whatever
    the declaration, the parser yields the token bag [tokens]. *)
Definition constCodec (tokens : gmap string string) : StyleCodec :=
  {| formatCssStyleValue := fun _ => ""; parseCssStyleValue := fun _ => tokens |}.

End ResolveStyle.

(** ** More built-ins: arrays, [Math.min], operators on values *)

Module JSArray.
Import JS.

(** [Array.prototype.sort]: a stable sort, here by insertion.  [before a b]
    says that [a] may stay in front of [b].  With a consistent comparator
    every stable algorithm gives this result; with an inconsistent one the
    order is implementation-defined and this is one such order. *)
Fixpoint insert (before : string -> string -> bool) (a : string) (l : list string)
  : list string :=
  match l with
  | [] => [a]
  | b :: l' => if before a b then a :: l else b :: insert before a l'
  end.

Definition sortBy (before : string -> string -> bool) (l : list string) : list string :=
  foldr (insert before) [] l.

(** [sort()] without a comparator orders strings by their code units. *)
Definition sort (l : list string) : list string := sortBy String.leb l.

(** [sort(comparefn)]: [b] goes in front of [a] only when
    [comparefn(a, b) > 0]; a [NaN] result counts as [0]. *)
Definition sortWith (comparefn : string -> string -> number) (l : list string)
  : list string :=
  sortBy (fun a b => negb (0 <? comparefn a b)%float) l.

(** [arr.length] as a number. *)
Definition lengthOf {A : Type} (l : list A) : number :=
  decimal false (Z.of_nat (length l)) 0.

(** [Math.min(a, b)]. *)
Definition Math_min (a b : number) : number :=
  if (PrimFloat.is_nan a || PrimFloat.is_nan b)%bool then nan
  else if (a <? b)%float then a
  else if (b <? a)%float then b
  else if PrimFloat.get_sign a then a else b.

End JSArray.

(** ** [modifiers/bar-chart.js] *)

Module Layout.
Import JS.
(** A layout object: the outer box, the inner box and the border widths
    the axis code reads. *)
Record t : Type := mk {
  x : number;
  y : number;
  width : number;
  height : number;
  innerX : number;
  innerY : number;
  innerWidth : number;
  innerHeight : number;
  borderLeftWidth : number;
  borderRightWidth : number
}.

Definition setInnerY (v : number) (l : t) : t :=
  mk (x l) (y l) (width l) (height l) (innerX l) v (innerWidth l) (innerHeight l)
     (borderLeftWidth l) (borderRightWidth l).

Definition setInnerWidth (v : number) (l : t) : t :=
  mk (x l) (y l) (width l) (height l) (innerX l) (innerY l) v (innerHeight l)
     (borderLeftWidth l) (borderRightWidth l).

Definition setInnerHeight (v : number) (l : t) : t :=
  mk (x l) (y l) (width l) (height l) (innerX l) (innerY l) (innerWidth l) v
     (borderLeftWidth l) (borderRightWidth l).

(** A layout passed to [resolveStyle] as its sizing context. *)
Definition asContext (l : t) : option ResolveStyle.SizingContext :=
  Some {| ResolveStyle.width := Some (width l); ResolveStyle.height := Some (height l) |}.
End Layout.

Module TextMetrics.
Import JS.
Record t : Type := mk {
  width : number;
  height : number;
  fontHeight : number
}.
End TextMetrics.

Module AxisInfo.
Import JS.
(** What [computeYAxisInfo] and [computeXAxisInfo] return; the fields one of
    them leaves out are [undefined]. *)
Record t : Type := mk {
  width : number;
  height : option number;
  labelMetrics : TextMetrics.t;
  maxLabelWidth : option number;
  heightOverflow : option number
}.
End AxisInfo.

Module BarChart.
Import JS JSArray ResolveStyle.

(** *** Data series *)

Record DataItem : Type := { name : string; value : number }.
Record Series : Type := { label : option string; data : list DataItem }.

(** [utils/data/get-unique-dataset-values.js] is not among the sources at
    hand; [getCategories] is modelled over any such function. *)
Class DatasetUtils : Type :=
  getUniqueDatasetValues : list Series -> string -> list string.

(** The first occurrence of every element, in order. *)
Fixpoint uniq (l : list string) : list string :=
  match l with
  | [] => []
  | a :: l' => a :: filter (fun b => b ≠ a) (uniq l')
  end.

(** Modelled from the spec: [getUniqueDatasetValues] is missing from the
    sources; the spec has it produce, from a sequence of series each holding
    named data points, the distinct names in stable first-seen order. *)
Definition firstSeenValues : DatasetUtils :=
  fun series property =>
    if String.eqb property "name"
    then uniq (flat_map (fun s => map name (data s)) series)
    else [].

(** *** Text measurement

    [compute-text-metrics.js] and [compute-max-text-metrics.js] measure
    text on a canvas; the axis code is modelled over any such service.  The
    third argument is the optional [maxWidth]. *)
Class TextMetricsService : Type := {
  computeTextMetrics : string -> gmap string ResolveStyle.value -> option number -> TextMetrics.t;
  computeMaxTextMetrics :
    list string -> gmap string ResolveStyle.value -> option number -> TextMetrics.t
}.

(** The string a template literal makes of a number (ECMAScript's
    [Number::toString]), left to the host. *)
Class NumberToString : Type := numberToString : number -> string.

(** *** Arguments and context *)

(** A [categoryAxisSort] that is set: a string, a function, or any other
    value ([null], a number, a boolean, an object), of which the code uses
    only the text a template literal makes of it.  [undefined] is the
    missing argument; a Symbol, which has no such text, is left out. *)
Inductive SortOrder : Type :=
| SortKeyword (keyword : string)
| SortFunction (comparefn : string -> string -> number)
| SortOther (text : string).

Record Args : Type := {
  categoryAxisSort : option SortOrder;
  categoryAxisMaxLabelCount : option number;
  xAxisPointer : option string;
  yAxisPointer : option string;
  xAxisPointerLabel : option string;
  yAxisPointerLabel : option string;
  xAxisTooltip : option bool;
  yAxisTooltip : option bool;
  xAxisFormatter : option (ResolveStyle.value -> string);
  yAxisFormatter : option (ResolveStyle.value -> string)
}.

(** The style declarations the axis code looks up by name in
    [context.styles]. *)
Record Styles : Type := {
  xAxisStyle : gmap string ResolveStyle.value;
  yAxisStyle : gmap string ResolveStyle.value;
  xAxisPointerStyle : gmap string ResolveStyle.value;
  yAxisPointerStyle : gmap string ResolveStyle.value;
  xAxisPointerLabelStyle : gmap string ResolveStyle.value;
  yAxisPointerLabelStyle : gmap string ResolveStyle.value
}.

Record Context : Type := {
  args : Args;
  styles : Styles;
  layout : Layout.t
}.

(** The [axis] argument, ['x'] or ['y']. *)
Inductive Axis : Type := X | Y.

(** [args[`${axis}AxisPointer`]] and its siblings. *)
Definition pointerArg (a : Args) (axis : Axis) : option string :=
  match axis with X => xAxisPointer a | Y => yAxisPointer a end.
Definition pointerLabelArg (a : Args) (axis : Axis) : option string :=
  match axis with X => xAxisPointerLabel a | Y => yAxisPointerLabel a end.
Definition tooltipArg (a : Args) (axis : Axis) : option bool :=
  match axis with X => xAxisTooltip a | Y => yAxisTooltip a end.
Definition formatterArg (a : Args) (axis : Axis) : option (ResolveStyle.value -> string) :=
  match axis with X => xAxisFormatter a | Y => yAxisFormatter a end.
Definition pointerStyleOf (st : Styles) (axis : Axis) : gmap string ResolveStyle.value :=
  match axis with X => xAxisPointerStyle st | Y => yAxisPointerStyle st end.
Definition pointerLabelStyleOf (st : Styles) (axis : Axis) : gmap string ResolveStyle.value :=
  match axis with X => xAxisPointerLabelStyle st | Y => yAxisPointerLabelStyle st end.
Definition isX (axis : Axis) : bool :=
  match axis with X => true | Y => false end.

(** *** Values of the chart configuration *)

Inductive jsval : Type :=
| JUndefined
| JBool (b : bool)
| JNum (n : number)
| JStr (s : string)
| JArray (items : list jsval)
| JObject (fields : list (string * jsval))
| JFormatter (f : ResolveStyle.value -> string)
| JBuiltin (name : string).   (* a built-in function, such as [Object.prototype.toString] *)

(** An object is the list of its properties in insertion order. *)
Definition object : Type := list (string * jsval).

(** [obj.k = v]. *)
Fixpoint setField (k : string) (v : jsval) (obj : object) : object :=
  match obj with
  | [] => [(k, v)]
  | (k', v') :: obj' =>
      if String.eqb k k' then (k, v) :: obj' else (k', v') :: setField k v obj'
  end.

(** [obj.k]. *)
Fixpoint getField (k : string) (obj : object) : jsval :=
  match obj with
  | [] => JUndefined
  | (k', v') :: obj' => if String.eqb k k' then v' else getField k obj'
  end.

(** [style.k] stored in the configuration as it is. *)
Definition prop (style : gmap string ResolveStyle.value) (k : string) : jsval :=
  match style !! k with
  | Some (VNum n) => JNum n
  | Some (VStr s) => JStr s
  | None => JUndefined
  end.

(** [style.k] where the source computes with it.  The box-model entries of
    a resolved style are numbers; a missing entry is [undefined], which
    arithmetic turns into [NaN].  An entry that is still a string lies
    outside the numeric fragment modelled here and reads as [NaN] as well. *)
Definition num (style : gmap string ResolveStyle.value) (k : string) : number :=
  match style !! k with
  | Some (VNum n) => n
  | _ => nan
  end.

(** A possibly [undefined] number in arithmetic. *)
Definition numOr (o : option number) : number := default nan o.

Definition truthy (v : jsval) : bool :=
  match v with
  | JUndefined => false
  | JBool b => b
  | JNum n => negb (PrimFloat.is_zero n || PrimFloat.is_nan n)
  | JStr s => negb (String.eqb s "")
  | JArray _ | JObject _ | JFormatter _ | JBuiltin _ => true
  end.

(** [a || b]. *)
Definition js_or (a b : jsval) : jsval := if truthy a then a else b.

(** *** [getCategories]

    Returns the categories together with what it wrote to [console.warn]. *)
Definition getCategories `{DatasetUtils} (a : Args) (series : list Series)
  : list string * list string :=
  let categoryAxisSort := default (SortKeyword "firstSeries") (categoryAxisSort a) in
  let categories := getUniqueDatasetValues series "name" in
  match categoryAxisSort with
  | SortKeyword keyword =>
      if String.eqb keyword "firstSeries" then (categories, [])
      else if String.eqb keyword "asc" then (sort categories, [])
      else if String.eqb keyword "desc" then (rev (sort categories), [])
      else (categories, ["Invalid 'categoryAxisSort' value: " +:+ keyword])
  | SortFunction comparefn => (sortWith comparefn categories, [])
  | SortOther text => (categories, ["Invalid 'categoryAxisSort' value: " +:+ text])
  end.

(** *** [computeYAxisInfo] *)
Definition computeYAxisInfo `{TextMetricsService} `{NumberToString}
    (style : gmap string ResolveStyle.value) (labels : list string) (maxValue : number)
  : AxisInfo.t :=
  let labelMetrics := computeMaxTextMetrics labels style None in
  let width :=
    (TextMetrics.width labelMetrics + num style "marginLeft" + num style "marginRight")%float in
  let topLabelMetrics := computeTextMetrics (numberToString maxValue) style None in
  let heightOverflow := (TextMetrics.height topLabelMetrics / 2)%float in
  {| AxisInfo.width := width;
     AxisInfo.height := None;
     AxisInfo.labelMetrics := labelMetrics;
     AxisInfo.maxLabelWidth := None;
     AxisInfo.heightOverflow := Some heightOverflow |}.

(** *** [computeXAxisInfo] *)
Definition computeXAxisInfo `{TextMetricsService}
    (a : Args) (layout : Layout.t) (style : gmap string ResolveStyle.value)
    (labels : list string) (yAxisInfo : AxisInfo.t) (isHorizontal : bool)
  : AxisInfo.t :=
  let maxLabelCount :=
    Math_min (default (lengthOf labels) (categoryAxisMaxLabelCount a)) (lengthOf labels) in
  let width :=
    (Layout.innerWidth layout - AxisInfo.width yAxisInfo
     - Layout.borderLeftWidth layout - Layout.borderRightWidth layout)%float in
  let lineWidth := (if isHorizontal then 0 else 1)%float in
  let maxLabelWidth := (width / (if isHorizontal then 10 else maxLabelCount))%float in
  let labelMetrics := computeMaxTextMetrics labels style (Some maxLabelWidth) in
  let height :=
    (TextMetrics.height labelMetrics + num style "marginTop" + num style "marginBottom"
     + lineWidth)%float in
  {| AxisInfo.width := width;
     AxisInfo.height := Some height;
     AxisInfo.labelMetrics := labelMetrics;
     AxisInfo.maxLabelWidth := Some maxLabelWidth;
     AxisInfo.heightOverflow := None |}.

(** *** [addAxisPointer] *)

(** [!type || type === 'none']: no pointer is configured. *)
Definition pointerOff (type : option string) : bool :=
  match type with
  | None => true
  | Some t => String.eqb t "" || String.eqb t "none"
  end.

(** The size of the pointer label along the axis and its margins. *)
Definition labelSize (labelStyle : gmap string ResolveStyle.value)
    (axisInfo : AxisInfo.t) (axis : Axis) : number :=
  match axis with
  | X => (numOr (AxisInfo.height axisInfo)
          + num labelStyle "paddingTop" + num labelStyle "paddingBottom"
          + num labelStyle "borderTopWidth" + num labelStyle "borderBottomWidth")%float
  | Y => (AxisInfo.width axisInfo
          + num labelStyle "paddingLeft" + num labelStyle "paddingRight"
          + num labelStyle "borderLeftWidth" + num labelStyle "borderRightWidth")%float
  end.

Definition labelMargins (labelStyle : gmap string ResolveStyle.value) (axis : Axis)
  : number :=
  match axis with
  | X => (num labelStyle "marginTop" + num labelStyle "marginBottom")%float
  | Y => (num labelStyle "marginLeft" + num labelStyle "marginRight")%float
  end.

(** The [switch (labelPosition)]: the new layout and, when a case applies,
    the value stored in [config.axisPointer.label.margin]: for [top] and
    [right] the number computed, for [bottom] and [left] the style's entry
    as it is, [undefined] when the style has none. *)
Definition placeLabel (labelPosition : string)
    (labelStyle : gmap string ResolveStyle.value)
    (layout : Layout.t) (axisInfo : AxisInfo.t) (axis : Axis)
  : Layout.t * option jsval :=
  let newLayout := layout in
  let labelSize := labelSize labelStyle axisInfo axis in
  let labelMargins := labelMargins labelStyle axis in
  if String.eqb labelPosition "top" then
    let newLayout :=
      Layout.setInnerHeight
        (Layout.innerHeight newLayout - (labelSize + labelMargins))%float newLayout in
    let newLayout :=
      Layout.setInnerY
        (Layout.innerY newLayout + (numOr (AxisInfo.height axisInfo) + labelMargins))%float
        newLayout in
    (newLayout,
     Some (JNum (labelSize + num labelStyle "marginTop" - Layout.innerHeight layout)%float))
  else if String.eqb labelPosition "right" then
    let newLayout :=
      Layout.setInnerWidth
        (Layout.innerWidth newLayout - (labelSize + labelMargins))%float newLayout in
    (newLayout,
     Some (JNum (labelSize - num labelStyle "marginLeft" - Layout.innerWidth layout)%float))
  else if String.eqb labelPosition "bottom" then
    let newLayout :=
      Layout.setInnerHeight
        (Layout.innerHeight newLayout - num labelStyle "marginTop")%float newLayout in
    (newLayout, Some (prop labelStyle "marginTop"))
  else if String.eqb labelPosition "left" then
    (newLayout, Some (prop labelStyle "marginRight"))
  else (newLayout, None).

(** The object assigned to [config.axisPointer], with what the later
    statements add to it. *)
Definition axisPointerConfig
    (type : string) (triggerTooltip : bool)
    (formatter : option (ResolveStyle.value -> string)) (labelPosition : string)
    (pointerStyle labelStyle : gmap string ResolveStyle.value)
    (axis : Axis) (margin : option jsval) : object :=
  let axisPointer :=
    [("show", JBool true); ("type", JStr type);
     ("triggerTooltip", JBool triggerTooltip); ("z", JNum 0%float)] in
  let axisPointer :=
    if String.eqb type "line" then
      setField "lineStyle"
        (JObject
           [("color", prop pointerStyle "color");
            ("width",
             match axis with
             | X => js_or (prop pointerStyle "borderLeftWidth")
                          (prop pointerStyle "borderRightWidth")
             | Y => js_or (prop pointerStyle "borderTopWidth")
                          (prop pointerStyle "borderBottomWidth")
             end);
            ("type",
             match axis with
             | X => js_or (prop pointerStyle "borderLeftStyle")
                          (prop pointerStyle "borderRightStyle")
             | Y => js_or (prop pointerStyle "borderTopStyle")
                          (prop pointerStyle "borderBottomStyle")
             end);
            ("opacity", prop pointerStyle "opacity")])
        axisPointer
    else if String.eqb type "shadow" then
      setField "shadowStyle"
        (JObject
           [("color", prop pointerStyle "backgroundColor");
            ("opacity", prop pointerStyle "opacity")])
        axisPointer
    else axisPointer in
  let label :=
    if String.eqb labelPosition "none" then [("show", JBool false)]
    else
      match formatter with
      | Some f => [("formatter", JFormatter f)]
      | None => []
      end ++
      [("color", prop labelStyle "color");
       ("fontStyle", prop labelStyle "fontStyle");
       ("fontWeight", prop labelStyle "fontWeight");
       ("fontFamily", prop labelStyle "fontFamily");
       ("fontSize", prop labelStyle "fontSize");
       ("backgroundColor", prop labelStyle "backgroundColor");
       ("borderWidth", prop labelStyle "borderTopWidth");
       ("borderColor", prop labelStyle "borderTopColor");
       ("borderType", prop labelStyle "borderTopType");
       ("borderRadius", prop labelStyle "borderRadius");
       ("padding",
        JArray [prop labelStyle "paddingTop"; prop labelStyle "paddingRight";
                prop labelStyle "paddingBottom"; prop labelStyle "paddingLeft"])] in
  let label :=
    match margin with
    | Some m => setField "margin" m label
    | None => label
    end in
  setField "label" (JObject label) axisPointer.

(** The part of [addAxisPointer] after the early return: the fields of the
    new layout object and the new contents of the [config] object. *)
Definition addAxisPointerBody `{StyleCodec}
    (context : Context) (layout : Layout.t) (config : object)
    (axisInfo : AxisInfo.t) (axis : Axis) (type : string)
  : Layout.t * object :=
  let pointerStyle :=
    resolveStyle (pointerStyleOf (styles context) axis)
                 (Layout.asContext (BarChart.layout context)) in
  let labelStyle :=
    resolveStyle (pointerLabelStyleOf (styles context) axis)
                 (Layout.asContext (BarChart.layout context)) in
  let labelPosition := default "bottom" (pointerLabelArg (args context) axis) in
  let triggerTooltip := default (isX axis) (tooltipArg (args context) axis) in
  let formatter := formatterArg (args context) axis in
  let '(newLayout, margin) := placeLabel labelPosition labelStyle layout axisInfo axis in
  (newLayout,
   setField "axisPointer"
     (JObject (axisPointerConfig type triggerTooltip formatter labelPosition
                 pointerStyle labelStyle axis margin))
     config).

(** [addAxisPointer] as a function of the contents of the objects it is
    given: the fields of the layout it returns and the contents [config]
    has afterwards.  Which object it returns is modelled in [Heap]. *)
Definition addAxisPointer `{StyleCodec}
    (context : Context) (layout : Layout.t) (config : object)
    (axisInfo : AxisInfo.t) (axis : Axis)
  : Layout.t * object :=
  let type := pointerArg (args context) axis in
  if pointerOff type then (layout, config)
  else addAxisPointerBody context layout config axisInfo axis (default "" type).

(** *** The axis steps of [generatePlotConfig]

    The Y axis is sized first, from its own labels; the X axis second, from
    its labels, the layout the Y pointer left and the Y axis info.  The
    category labels go to the X axis and the value texts to the Y axis,
    the other way round in horizontal orientation. *)
Definition axisInfos `{StyleCodec} `{TextMetricsService} `{NumberToString}
    (context : Context) (layout : Layout.t) (categories valueTexts : list string)
    (maxValue : number) (isHorizontal : bool)
  : AxisInfo.t * AxisInfo.t :=
  let yAxisStyle :=
    resolveStyle (yAxisStyle (styles context))
                 (Layout.asContext (BarChart.layout context)) in
  let yAxisInfo :=
    computeYAxisInfo yAxisStyle (if isHorizontal then categories else valueTexts)
                     maxValue in
  let layout := fst (addAxisPointer context layout [] yAxisInfo Y) in
  let xAxisStyle :=
    resolveStyle (xAxisStyle (styles context))
                 (Layout.asContext (BarChart.layout context)) in
  let xAxisInfo :=
    computeXAxisInfo (args context) layout xAxisStyle
                     (if isHorizontal then valueTexts else categories)
                     yAxisInfo isHorizontal in
  (yAxisInfo, xAxisInfo).

End BarChart.

(** ** Objects by reference

    JavaScript passes objects and arrays by reference.  The store maps
    locations to the objects the three operations are given or create, so
    that writing to an argument and returning the argument itself can be
    told from building a new object. *)

Module Heap.
Import JS JSArray ResolveStyle BarChart.

Abbreviation loc := positive (only parsing).

Inductive cell : Type :=
| StyleObject (style : gmap string ResolveStyle.value)
| LayoutObject (l : Layout.t)
| ConfigObject (o : object)
| NameArray (names : list string)
| SeriesArray (series : list Series).

Abbreviation heap := (gmap loc cell) (only parsing).

(** A computation on the store.  [None] stands for a call whose argument
    does not refer to an object of the kind the function expects. *)
Definition M (A : Type) : Type := heap -> option (A * heap).

#[export] Instance M_ret : MRet M := fun A a h => Some (a, h).

#[export] Instance M_bind : MBind M :=
  fun A B k m h => match m h with
                   | Some (a, h') => k a h'
                   | None => None
                   end.

(** A new object, at a location not in use. *)
Definition alloc (c : cell) : M loc :=
  fun h => let l := fresh (dom h) in Some (l, <[l := c]> h).

(** Overwrites the object at [l]. *)
Definition write (l : loc) (c : cell) : M unit :=
  fun h => Some (tt, <[l := c]> h).

Definition readStyle (l : loc) : M (gmap string ResolveStyle.value) :=
  fun h => match h !! l with Some (StyleObject s) => Some (s, h) | _ => None end.

Definition readLayout (l : loc) : M Layout.t :=
  fun h => match h !! l with Some (LayoutObject x) => Some (x, h) | _ => None end.

Definition readConfig (l : loc) : M object :=
  fun h => match h !! l with Some (ConfigObject o) => Some (o, h) | _ => None end.

Definition readNames (l : loc) : M (list string) :=
  fun h => match h !! l with Some (NameArray xs) => Some (xs, h) | _ => None end.

Definition readSeries (l : loc) : M (list Series) :=
  fun h => match h !! l with Some (SeriesArray s) => Some (s, h) | _ => None end.

(** [resolveStyle(style, context)]: reads [style]; [mapValues] builds the
    object it returns. *)
Definition resolveStyle `{StyleCodec} (style : loc) (context : option SizingContext)
  : M loc :=
  s ← readStyle style;
  alloc (StyleObject (ResolveStyle.resolveStyle s context)).

(** [addAxisPointer(context, layout, config, axisInfo, axis)]: the early
    return hands back [layout] itself; otherwise [config.axisPointer] is
    assigned and [{ ...layout }], updated, is returned. *)
Definition addAxisPointer `{StyleCodec}
    (context : Context) (layout config : loc) (axisInfo : AxisInfo.t) (axis : Axis)
  : M loc :=
  let type := pointerArg (args context) axis in
  if pointerOff type then mret layout
  else
    l ← readLayout layout;
    c ← readConfig config;
    let '(newLayout, c') :=
      addAxisPointerBody context l c axisInfo axis (default "" type) in
    write config (ConfigObject c');;
    alloc (LayoutObject newLayout).

(** [categories.sort()] and the like: the array at [l] is rearranged in
    place. *)
Definition sortInPlace (f : list string -> list string) (l : loc) : M unit :=
  xs ← readNames l;
  write l (NameArray (f xs)).

(** [getCategories(args, series)]: [getUniqueDatasetValues] reads [series]
    and returns a new array, which is then sorted in place and returned.
    The second component is what went to [console.warn]. *)
Definition getCategories `{DatasetUtils} (a : Args) (series : loc)
  : M (loc * list string) :=
  let categoryAxisSort := default (SortKeyword "firstSeries") (categoryAxisSort a) in
  s ← readSeries series;
  categories ← alloc (NameArray (getUniqueDatasetValues s "name"));
  match categoryAxisSort with
  | SortKeyword keyword =>
      if String.eqb keyword "firstSeries" then mret (categories, [])
      else if String.eqb keyword "asc" then
        (sortInPlace sort categories;; mret (categories, []))
      else if String.eqb keyword "desc" then
        (sortInPlace sort categories;;
         sortInPlace (@rev string) categories;; mret (categories, []))
      else mret (categories, ["Invalid 'categoryAxisSort' value: " +:+ keyword])
  | SortFunction comparefn =>
      sortInPlace (sortWith comparefn) categories;; mret (categories, [])
  | SortOther text =>
      mret (categories, ["Invalid 'categoryAxisSort' value: " +:+ text])
  end.

End Heap.

(** ** Sample collaborators for closed examples *)

Module Samples.
Import JS JSArray ResolveStyle BarChart.

(** The tokens a pointer-label style with 4px padding, a 1px border and
    4px margins parses to. *)
Definition labelTokens : gmap string string :=
  list_to_map
    [("color", "#000"); ("backgroundColor", "#eee");
     ("paddingTop", "4px"); ("paddingRight", "4px");
     ("paddingBottom", "4px"); ("paddingLeft", "4px");
     ("borderTopWidth", "1px"); ("borderRightWidth", "1px");
     ("borderBottomWidth", "1px"); ("borderLeftWidth", "1px");
     ("marginTop", "4px"); ("marginRight", "4px");
     ("marginBottom", "4px"); ("marginLeft", "4px")].

Definition labelCodec : StyleCodec := constCodec labelTokens.

(** A text measurer for a fixed-pitch font on one line: 7px per character,
    14px high; the widest label of a list is the first of greatest width. *)
Definition fixedPitch (text : string) : TextMetrics.t :=
  {| TextMetrics.width := (7 * decimal false (Z.of_nat (String.length text)) 0)%float;
     TextMetrics.height := 14%float;
     TextMetrics.fontHeight := 14%float |}.

Definition widest (labels : list string) : TextMetrics.t :=
  foldl (fun best text =>
           if (TextMetrics.width best <? TextMetrics.width (fixedPitch text))%float
           then fixedPitch text else best)
        {| TextMetrics.width := 0%float; TextMetrics.height := 0%float;
           TextMetrics.fontHeight := 0%float |}
        labels.

Definition fixedPitchService : TextMetricsService :=
  {| computeTextMetrics := fun text _ _ => fixedPitch text;
     computeMaxTextMetrics := fun labels _ _ => widest labels |}.

(** A stand-in for [Number::toString]. *)
Definition threeDigits : NumberToString := fun _ => "100".

Definition noArgs : Args :=
  {| categoryAxisSort := None; categoryAxisMaxLabelCount := None;
     xAxisPointer := None; yAxisPointer := None;
     xAxisPointerLabel := None; yAxisPointerLabel := None;
     xAxisTooltip := None; yAxisTooltip := None;
     xAxisFormatter := None; yAxisFormatter := None |}.

(** [{ xAxisPointer: xp, xAxisPointerLabel: xl, yAxisPointer: yp,
       yAxisPointerLabel: yl }]. *)
Definition pointerArgs (xp xl yp yl : option string) : Args :=
  {| categoryAxisSort := None; categoryAxisMaxLabelCount := None;
     xAxisPointer := xp; yAxisPointer := yp;
     xAxisPointerLabel := xl; yAxisPointerLabel := yl;
     xAxisTooltip := None; yAxisTooltip := None;
     xAxisFormatter := None; yAxisFormatter := None |}.

Definition noStyles : Styles :=
  {| xAxisStyle := ∅; yAxisStyle := ∅;
     xAxisPointerStyle := ∅; yAxisPointerStyle := ∅;
     xAxisPointerLabelStyle := ∅; yAxisPointerLabelStyle := ∅ |}.

(** A 400 by 300 box at the origin without border or padding. *)
Definition box : Layout.t :=
  Layout.mk 0 0 400 300 0 0 400 300 0 0.

Definition contextOf (a : Args) : Context :=
  {| args := a; styles := noStyles; layout := box |}.

(** An axis info 50 wide and 20 high. *)
Definition axis50x20 : AxisInfo.t :=
  {| AxisInfo.width := 50%float; AxisInfo.height := Some 20%float;
     AxisInfo.labelMetrics := fixedPitch "";
     AxisInfo.maxLabelWidth := None; AxisInfo.heightOverflow := None |}.

(** A store with a layout at 1, an empty [config] object at 2, a style
    declaration at 3 and an array of series at 4. *)
Definition sampleHeap : gmap positive Heap.cell :=
  {[ 1%positive := Heap.LayoutObject box;
     2%positive := Heap.ConfigObject [];
     3%positive := Heap.StyleObject {[ "marginTop" := VNum 8%float ]};
     4%positive := Heap.SeriesArray
       [ {| label := None;
            data := [ {| name := "pear"; value := 1 |};
                      {| name := "apple"; value := 2 |} ] |} ] ]}.

End Samples.

(** ** The strings the two patterns accept *)

Module Patterns.
Import JS.

(** [k] percent signs. *)
Fixpoint percents (k : nat) : string :=
  match k with
  | O => ""
  | S k' => String "%" (percents k')
  end.

End Patterns.

(** ** More of [modifiers/bar-chart.js] *)

Module Variants.
Import JS JSArray ResolveStyle BarChart.

(** [list.includes(v)], for a list of strings and a value that is a string
    or [undefined]. *)
Definition includes (l : list string) (v : option string) : bool :=
  match v with
  | Some s => existsb (String.eqb s) l
  | None => false
  end.

Definition isGroupedVariant (variant : option string) : bool :=
  includes ["groupedBar"] variant.

Definition isStackedVariant (variant : option string) : bool :=
  includes ["stackedArea"; "stackedBar"] variant.

Definition isBarVariant (variant : option string) : bool :=
  includes ["bar"; "groupedBar"; "stackedBar"] (Some (default "bar" variant)).

Definition isAreaVariant (variant : option string) : bool :=
  includes ["area"; "stackedArea"] variant.

(** [{ ...a, ...b }]: the properties of [a], then those of [b] assigned in
    order. *)
Definition spread (a b : object) : object :=
  fold_left (fun acc kv => setField (fst kv) (snd kv) acc) b a.

(** [...(cond && obj)] inside an object literal: nothing when [cond] is
    false. *)
Definition spreadIf (cond : bool) (b : object) (a : object) : object :=
  if cond then spread a b else a.

(** The [seriesBaseConfig] object of [generatePlotConfig]. *)
Definition seriesBaseConfig (gridIndex : number) (variant : option string) : object :=
  let isBarVariant := isBarVariant variant in
  let isAreaVariant := isAreaVariant variant in
  let o :=
    [("xAxisIndex", JNum gridIndex); ("yAxisIndex", JNum gridIndex);
     ("type", JStr (if isBarVariant then "bar" else "line"))] in
  let o := spreadIf isAreaVariant [("areaStyle", JObject [])] o in
  let o :=
    spreadIf (negb isBarVariant)
      [("symbol", JStr "circle");
       ("symbolSize", JNum (if isAreaVariant then 6 else 8)%float)] o in
  let o :=
    spreadIf (negb isBarVariant)
      [("emphasis",
        JObject
          [("itemStyle",
            JObject [("shadowBlur", JNum 3%float); ("shadowColor", JStr "#000000");
                     ("shadowOffsetX", JNum 1%float);
                     ("shadowOffsetY", JNum 1%float)])])] o in
  spread o [("selectedMode", JStr "single"); ("triggerLineEvent", JBool true)].

(** A colour map as a property read sees it: the object's own properties
    and, for a name it does not have itself, what its prototype chain
    answers ([undefined] where the chain has no such property either). *)
Record ColorMap : Type := {
  own : gmap string jsval;
  inherited : string -> jsval
}.

(** The functions every object literal inherits from [Object.prototype]. *)
Definition objectPrototypeFunctions : list string :=
  ["constructor"; "hasOwnProperty"; "isPrototypeOf"; "propertyIsEnumerable";
   "toLocaleString"; "toString"; "valueOf";
   "__defineGetter__"; "__defineSetter__"; "__lookupGetter__"; "__lookupSetter__"].

(** What [Object.prototype] answers for the name [k]; [__proto__] answers
    with the prototype object itself. *)
Definition objectPrototype (k : string) : jsval :=
  if includes objectPrototypeFunctions (Some k) then JBuiltin k
  else if String.eqb k "__proto__"
  then JObject (map (fun name => (name, JBuiltin name)) objectPrototypeFunctions)
  else JUndefined.

(** The object literal [{ k1: v1, ... }]. *)
Definition objectLiteral (entries : gmap string jsval) : ColorMap :=
  {| own := entries; inherited := objectPrototype |}.

(** [colorMap?.[color]]: [undefined] for a missing map, the map's own
    property when it has one, and what it inherits otherwise. *)
Definition readColor (colorMap : option ColorMap) (color : string) : jsval :=
  match colorMap with
  | Some m => default (inherited m color) (own m !! color)
  | None => JUndefined
  end.

(** [setItemColor(colorMap, item, color)]. *)
Definition setItemColor (colorMap : option ColorMap)
    (item : object) (color : string) : object :=
  if negb (truthy (readColor colorMap color)) then item
  else setField "itemStyle" (JObject [("color", readColor colorMap color)]) item.

End Variants.

(** ** Consistent comparators

    [Array.prototype.sort] fixes the order of its result only for a
    comparator that is consistent for the values sorted; for any other the
    order is implementation-defined.  These are ECMAScript's conditions. *)

Module Comparators.
Import JS.

(** [a <CF b], [a =CF b] and [a >CF b]: [comparefn(a, b)] is below, equal
    to or above zero. *)
Definition ltCF (comparefn : string -> string -> number) (a b : string) : bool :=
  (comparefn a b <? 0)%float.

Definition eqCF (comparefn : string -> string -> number) (a b : string) : bool :=
  PrimFloat.eqb (comparefn a b) 0%float.

Definition gtCF (comparefn : string -> string -> number) (a b : string) : bool :=
  (0 <? comparefn a b)%float.

(** [comparefn] is a consistent comparator for the values of [l]: on any
    two of them it is below, equal to or above zero (so never [NaN]);
    [a =CF a]; [a =CF b] gives [b =CF a]; and [=CF], [<CF] and [>CF] are
    each transitive. *)
Definition consistentOn (comparefn : string -> string -> number) (l : list string) : bool :=
  forallb (fun a =>
    eqCF comparefn a a &&
    forallb (fun b =>
      (ltCF comparefn a b || eqCF comparefn a b || gtCF comparefn a b) &&
      implb (eqCF comparefn a b) (eqCF comparefn b a) &&
      forallb (fun c =>
        implb (eqCF comparefn a b && eqCF comparefn b c) (eqCF comparefn a c) &&
        implb (ltCF comparefn a b && ltCF comparefn b c) (ltCF comparefn a c) &&
        implb (gtCF comparefn a b && gtCF comparefn b c) (gtCF comparefn a c)) l) l) l.

End Comparators.

(** ** More sample inputs *)

Module MoreSamples.
Import JS JSArray ResolveStyle BarChart Samples.

(** The comparator [(a, b) => (a < b ? -1 : a > b ? 1 : 0)]. *)
Definition byCodeUnits (x y : string) : number :=
  if String.ltb x y then (-1)%float
  else if String.ltb y x then 1%float else 0%float.

(** [{ categoryAxisSort: comparefn }]. *)
Definition sortedBy (comparefn : string -> string -> number) : Args :=
  {| categoryAxisSort := Some (SortFunction comparefn);
     categoryAxisMaxLabelCount := None;
     xAxisPointer := None; yAxisPointer := None;
     xAxisPointerLabel := None; yAxisPointerLabel := None;
     xAxisTooltip := None; yAxisTooltip := None;
     xAxisFormatter := None; yAxisFormatter := None |}.

End MoreSamples.

(** ** Drilling into hierarchical series *)

Module Drill.
Import JS JSArray ResolveStyle BarChart.

(** A series of a hierarchical data set: its [label], its [data], and in
    [series] the series one level down when there are any. *)
Inductive Node : Type :=
| MkNode (label : option string) (data : list DataItem) (series : option (list Node)).

Definition nodeLabel (n : Node) : option string :=
  match n with MkNode label _ _ => label end.

Definition nodeSeries (n : Node) : option (list Node) :=
  match n with MkNode _ _ series => series end.

(** The accumulator of the [reduce] in [createContextData]:
    [{ series, title }], either of which may be [undefined]. *)
Definition Level : Type := option (list Node) * option string.

(** One step of that [reduce]:
    [{ series: series[pathIndex].series, title: series[pathIndex].label }].
    [None] stands for the [TypeError] of indexing [undefined] or of reading
    a property of [undefined]. *)
Definition drillStep (level : Level) (pathIndex : nat) : option Level :=
  series ← fst level;
  node ← series !! pathIndex;
  Some (nodeSeries node, nodeLabel node).

(** [this.drillPath.reduce(step, { series: seriesData, title: args.title })]. *)
Definition drill (seriesData : list Node) (title : option string) (drillPath : list nat)
  : option Level :=
  foldl (fun level pathIndex => level ≫= fun l => drillStep l pathIndex)
        (Some (Some seriesData, title)) drillPath.

(** The [dblclick] handler of [configureChart]: the index is pushed on the
    drill path when [context.data.dataset[seriesIndex].series] is set.  The
    result is the new drill path; [None] stands for a [TypeError]. *)
Definition onDblClick (dataset : option (list Node)) (drillPath : list nat)
    (seriesIndex : nat) : option (list nat) :=
  series ← dataset;
  node ← series !! seriesIndex;
  Some (match nodeSeries node with
        | Some _ => drillPath ++ [seriesIndex]
        | None => drillPath
        end).

(** The [onclick] of the drill up button: [this.drillPath.popObject()]. *)
Definition onDrillUp (drillPath : list nat) : list nat := removelast drillPath.

(** Following a drill path ends at a level that has series. *)
Definition followable (seriesData : list Node) (title : option string)
    (drillPath : list nat) : Prop :=
  exists series t, drill seriesData title drillPath = Some (Some series, t).

End Drill.

(** ** The two pointer steps of [generatePlotConfig] on the store *)

Module PlotLayout.
Import JS JSArray ResolveStyle BarChart Heap.

(** [layout = this.addAxisPointer(context, layout, yAxisConfig, yAxisInfo,
    'y')], then [computeXAxisInfo] on the layout that returned, then
    [layout = this.addAxisPointer(context, layout, xAxisConfig, xAxisInfo,
    'x')].  The result is the last layout with the X axis info. *)
Definition addAxisPointers `{StyleCodec} `{TextMetricsService}
    (context : Context) (layout yAxisConfig xAxisConfig : positive)
    (yAxisInfo : AxisInfo.t) (xAxisStyle : gmap string ResolveStyle.value)
    (xLabels : list string) (isHorizontal : bool)
  : M (positive * AxisInfo.t) :=
  layout ← Heap.addAxisPointer context layout yAxisConfig yAxisInfo Y;
  l ← readLayout layout;
  let xAxisInfo :=
    computeXAxisInfo (args context) l xAxisStyle xLabels yAxisInfo isHorizontal in
  layout ← Heap.addAxisPointer context layout xAxisConfig xAxisInfo X;
  mret (layout, xAxisInfo).

End PlotLayout.

(** * Properties *)

(** ** Facts about the built-ins *)

Module JSFacts.
Import JS.

Lemma app_nil_l (s : string) : "" +:+ s = s.
Proof. reflexivity. Qed.

Lemma app_cons (c : ascii) (s t : string) : String c s +:+ t = String c (s +:+ t).
Proof. reflexivity. Qed.

Lemma app_empty_r (s : string) : s +:+ "" = s.
Proof.
  induction s as [|c s IH]; [reflexivity | now rewrite app_cons, IH].
Qed.

Lemma app_assoc (s1 s2 s3 : string) : (s1 +:+ s2) +:+ s3 = s1 +:+ s2 +:+ s3.
Proof.
  induction s1 as [|c s1 IH]; [reflexivity | now rewrite !app_cons, IH].
Qed.

Lemma app_length (s1 s2 : string) :
  String.length (s1 +:+ s2) = String.length s1 + String.length s2.
Proof.
  induction s1 as [|c s1 IH]; [reflexivity |].
  rewrite app_cons. simpl. now rewrite IH.
Qed.

Lemma substring_prefix (s u : string) :
  String.substring 0 (String.length s) (s +:+ u) = s.
Proof.
  induction s as [|c s IH].
  - rewrite app_nil_l. destruct u; reflexivity.
  - rewrite app_cons. simpl. now rewrite IH.
Qed.

(** Cutting a suffix off the end gives back what was in front of it. *)
Lemma slice_end_app (s u : string) : slice_end (s +:+ u) (String.length u) = s.
Proof.
  unfold slice_end. rewrite app_length.
  replace (String.length s + String.length u - String.length u)
    with (String.length s) by lia.
  apply substring_prefix.
Qed.

Lemma app_eq_empty (s1 s2 : string) : s1 +:+ s2 = "" -> s1 = "" /\ s2 = "".
Proof.
  destruct s1; [rewrite app_nil_l; auto | rewrite app_cons; discriminate].
Qed.

Lemma app_eq_cons (s1 s2 s : string) (c : ascii) :
  s1 +:+ s2 = String c s ->
  (s1 = "" /\ s2 = String c s) \/ (exists t, s1 = String c t /\ s = t +:+ s2).
Proof.
  destruct s1 as [|c1 t]; [rewrite app_nil_l | rewrite app_cons]; intros E.
  - now left.
  - right. injection E as -> <-. now exists t.
Qed.

(** *** Derivatives decide the language *)

Lemma nullable_lang (r : regex) : nullable r = true <-> lang r "".
Proof.
  induction r as [| | c | | r1 IH1 r2 IH2 | r1 IH1 r2 IH2 | r IH]; simpl.
  - split; [discriminate | inversion 1].
  - split; [constructor | reflexivity].
  - split; [discriminate | inversion 1].
  - split; [discriminate | inversion 1].
  - rewrite andb_true_iff, IH1, IH2. split.
    + intros [H1 H2]. apply (lang_seq _ _ "" "" H1 H2).
    + inversion 1; subst.
      match goal with E : _ +:+ _ = "" |- _ => apply app_eq_empty in E as [-> ->] end.
      now split.
  - rewrite orb_true_iff, IH1, IH2. split.
    + intros [H1 | H2]; [now apply lang_alt_l | now apply lang_alt_r].
    + inversion 1; subst; [now left | now right].
  - split; [constructor | reflexivity].
Qed.

(** A non-empty word of [r*] starts with a non-empty word of [r]. *)
Lemma lang_star_cons_inv (r : regex) (c : ascii) (s : string) :
  lang (Star r) (String c s) ->
  exists s1 s2, s = s1 +:+ s2 /\ lang r (String c s1) /\ lang (Star r) s2.
Proof.
  intros H. remember (Star r) as r' eqn:Er. remember (String c s) as w eqn:Ew.
  revert s Ew.
  induction H as [| | | | | | r0 | r0 s1 s2 H1 _ H2 IH2]; try discriminate.
  injection Er as ->. intros s Ew.
  destruct (app_eq_cons _ _ _ _ Ew) as [[-> ->] | (t & -> & ->)].
  - now apply IH2.
  - now exists t, s2.
Qed.

Lemma deriv_lang (c : ascii) (r : regex) (s : string) :
  lang (deriv c r) s <-> lang r (String c s).
Proof.
  revert s.
  induction r as [| | d | | r1 IH1 r2 IH2 | r1 IH1 r2 IH2 | r IH]; intros s; simpl.
  - split; inversion 1.
  - split; inversion 1.
  - destruct (Ascii.eqb c d) eqn:E.
    + apply Ascii.eqb_eq in E as ->. split.
      * inversion 1; subst. constructor.
      * inversion 1; subst. constructor.
    + split; [inversion 1 |].
      inversion 1; subst. rewrite Ascii.eqb_refl in E. discriminate.
  - destruct (is_digit c) eqn:E.
    + split.
      * inversion 1; subst. now constructor.
      * inversion 1; subst. constructor.
    + split; [inversion 1 |].
      inversion 1; subst. congruence.
  - assert (Hseq : lang (Seq (deriv c r1) r2) s <->
                   exists t u, s = t +:+ u /\ lang r1 (String c t) /\ lang r2 u).
    { split.
      - inversion 1; subst. do 2 eexists. rewrite <- IH1. eauto.
      - intros (t & u & -> & H1 & H2). constructor; [now apply IH1 | assumption]. }
    assert (Hsplit : lang (Seq r1 r2) (String c s) <->
              (exists t u, s = t +:+ u /\ lang r1 (String c t) /\ lang r2 u) \/
              (lang r1 "" /\ lang r2 (String c s))).
    { split.
      - inversion 1; subst.
        match goal with E : _ +:+ _ = String _ _ |- _ =>
          destruct (app_eq_cons _ _ _ _ E) as [[-> ->] | (t' & -> & ->)]
        end.
        + right. auto.
        + left. eauto.
      - intros [(t & u & -> & H1 & H2) | [H1 H2]].
        + apply (lang_seq _ _ (String c t) u H1 H2).
        + apply (lang_seq _ _ "" (String c s) H1 H2). }
    rewrite Hsplit. destruct (nullable r1) eqn:N.
    + split.
      * inversion 1; subst; [left; now apply Hseq | right].
        split; [now apply nullable_lang | now apply IH2].
      * intros [H | [_ H]]; [apply lang_alt_l; now apply Hseq |].
        apply lang_alt_r. now apply IH2.
    + rewrite Hseq. split; [auto |].
      intros [H | [H _]]; [assumption |].
      apply nullable_lang in H. congruence.
  - split.
    + inversion 1; subst; [apply lang_alt_l; now apply IH1 | apply lang_alt_r; now apply IH2].
    + inversion 1; subst; [apply lang_alt_l; now apply IH1 | apply lang_alt_r; now apply IH2].
  - split.
    + inversion 1; subst.
      match goal with |- lang _ (String c (?t +:+ ?u)) =>
        apply (lang_star_cons r (String c t) u); [now apply IH | assumption]
      end.
    + intros H. apply lang_star_cons_inv in H as (t & u & -> & H1 & H2).
      constructor; [now apply IH | assumption].
Qed.

Theorem test_lang (r : regex) (s : string) : test r s = true <-> lang r s.
Proof.
  revert r. induction s as [|c s IH]; intros r; simpl.
  - apply nullable_lang.
  - rewrite IH. apply deriv_lang.
Qed.

(** *** Floats *)

Lemma SFeqb_refl (s : spec_float) : s <> S754_nan -> SFeqb s s = true.
Proof.
  intros Hs. unfold SFeqb, SFcompare.
  destruct s as [sg | sg | | sg m e]; try (now destruct sg); [congruence |].
  rewrite Z.compare_refl, Pos.compare_cont_refl. now destruct sg.
Qed.

(** There is one [NaN]. *)
Lemma is_nan_eq (a : number) : PrimFloat.is_nan a = true -> a = nan.
Proof.
  unfold PrimFloat.is_nan. rewrite FloatAxioms.eqb_spec. intros E.
  apply Prim2SF_inj. change (Prim2SF nan) with S754_nan.
  destruct (Prim2SF a) as [sg | sg | | sg m e] eqn:Ea; try reflexivity;
    rewrite SFeqb_refl in E by discriminate; discriminate.
Qed.

Lemma Math_min_same (a : number) : JSArray.Math_min a a = a.
Proof.
  unfold JSArray.Math_min. destruct (PrimFloat.is_nan a) eqn:En; simpl.
  - symmetry. now apply is_nan_eq.
  - destruct (a <? a)%float; [reflexivity |]. now destruct (get_sign a).
Qed.

(** Two specific floats differ. *)
Ltac float_neq :=
  let E := fresh "E" in
  intros E;
  match type of E with
  | ?a = ?b =>
      let F := fresh "F" in
      assert (F : PrimFloat.eqb a b = PrimFloat.eqb b b) by (now rewrite E);
      vm_compute in F; discriminate F
  end.

(** Multiplying by [1] is exact: [x * 1] is [x] for every float. *)
Lemma shr_52 (m : positive) :
  SpecFloat.iter_pos shr_1 52 (Build_shr_record (Zpos (Pos.iter xO m 52)) false false)
  = Build_shr_record (Zpos m) false false.
Proof. vm_compute. reflexivity. Qed.

Lemma digits2_shift_52 (m : positive) :
  Zpos (digits2_pos (Pos.iter xO m 52)) = (Zpos (digits2_pos m) + 52)%Z.
Proof. cbn [Pos.iter digits2_pos]. lia. Qed.

Lemma mul_pow2_52 (m : positive) : (m * 4503599627370496)%positive = Pos.iter xO m 52.
Proof. rewrite Pos.mul_comm. reflexivity. Qed.

Lemma SFmul_one (s : bool) (m : positive) (e : Z) :
  bounded prec emax m e = true ->
  SFmul prec emax (S754_finite s m e) (S754_finite false 4503599627370496 (-52))
  = S754_finite s m e.
Proof.
  intros Hb. unfold bounded, canonical_mantissa in Hb.
  apply andb_prop in Hb as [Hc He]. apply Z.eqb_eq in Hc.
  unfold SFmul. rewrite mul_pow2_52, xorb_false_r.
  unfold binary_round_aux, shr_fexp.
  cbn [Zdigits2 shr_record_of_loc]. rewrite digits2_shift_52.
  replace (Z.pos (digits2_pos m) + 52 + (e + -52))%Z
    with (Z.pos (digits2_pos m) + e)%Z by lia.
  rewrite Hc. replace (e - (e + -52))%Z with 52%Z by lia.
  cbn [shr]. rewrite shr_52.
  cbn [shr_m loc_of_shr_record round_nearest_even Zdigits2 shr_record_of_loc].
  replace (e + -52 + 52)%Z with e by lia.
  rewrite Hc, Z.sub_diag. cbn [shr shr_m]. now rewrite He.
Qed.

Lemma nan_mul (x : number) : (nan * x)%float = nan.
Proof. apply Prim2SF_inj. rewrite mul_spec. reflexivity. Qed.

Lemma mul_one_r (x : number) : (x * 1)%float = x.
Proof.
  apply Prim2SF_inj. rewrite mul_spec.
  change (Prim2SF 1) with (S754_finite false 4503599627370496 (-52)).
  pose proof (Prim2SF_valid x) as Hv.
  destruct (Prim2SF x) as [s | s | | s m e]; simpl in *.
  - now rewrite xorb_false_r.
  - now rewrite xorb_false_r.
  - reflexivity.
  - now apply SFmul_one.
Qed.

End JSFacts.

(** ** Decimal numerals, the patterns and the number parsers *)

Module NumeralFacts.
Import JS JSFacts ResolveStyle.

Lemma digit_is_nat (d : digit) :
  Ascii.is_nat (digit_char d) = Some (Z.to_nat (digit_val d)).
Proof. destruct d; reflexivity. Qed.

Lemma digit_is_digit (d : digit) : is_digit (digit_char d) = true.
Proof. destruct d; reflexivity. Qed.

Lemma digit_val_nat (d : digit) : Z.of_nat (Z.to_nat (digit_val d)) = digit_val d.
Proof. destruct d; reflexivity. Qed.

Lemma lang_digits (ds : list digit) : lang (Star Digit) (digits_string ds).
Proof.
  induction ds as [|d ds IH]; simpl; [constructor |].
  apply (lang_star_cons Digit (String (digit_char d) "") (digits_string ds)).
  - constructor. apply digit_is_digit.
  - exact IH.
Qed.

Lemma lang_numberBody (n : numeral) : lang numberBody (numeral_string n).
Proof.
  destruct n as [neg d more frac]. unfold numberBody, numeral_string; simpl.
  apply lang_seq; [destruct neg; [apply lang_alt_l | apply lang_alt_r]; constructor |].
  apply lang_seq.
  - apply (lang_seq Digit (Star Digit) (String (digit_char d) "") (digits_string more)).
    + constructor. apply digit_is_digit.
    + apply lang_digits.
  - destruct frac as [f|]; simpl.
    + apply (lang_seq (Opt (Chr ".")) (Star Digit) (String "." "") (digits_string f)).
      * apply lang_alt_l. constructor.
      * apply lang_digits.
    + apply (lang_seq (Opt (Chr ".")) (Star Digit) "" "").
      * apply lang_alt_r. constructor.
      * constructor.
Qed.

(** Every numeral followed by [px] matches the pixel pattern. *)
Lemma pixel_token_matches (n : numeral) :
  test isPixelDimension (numeral_string n +:+ "px") = true.
Proof.
  apply test_lang. apply lang_seq; [apply lang_numberBody |].
  apply (lang_seq (Chr "p") (Chr "x") (String "p" "") (String "x" "")); constructor.
Qed.

(** Every numeral followed by [%] matches the percent pattern. *)
Lemma percent_token_matches (n : numeral) :
  test isPercentDimension (numeral_string n +:+ "%") = true.
Proof.
  apply test_lang. apply lang_seq; [apply lang_numberBody |].
  apply (lang_seq (Chr "%") (Star (Chr "%")) (String "%" "") ""); constructor.
Qed.

(** *** The characters a pattern can consume *)

Lemma occurs_app (c : ascii) (s1 s2 : string) :
  occurs c (s1 +:+ s2) = occurs c s1 || occurs c s2.
Proof.
  induction s1 as [|d s1 IH]; [reflexivity |].
  rewrite app_cons. simpl. rewrite IH. apply orb_assoc.
Qed.

Lemma lang_alphabet (r : regex) (s : string) (c : ascii) :
  lang r s -> occurs c s = true -> alphabet r c = true.
Proof.
  induction 1 as [| d | d Hd | r1 r2 s1 s2 _ IH1 _ IH2 | r1 r2 s _ IH
                 | r1 r2 s _ IH | r | r s1 s2 _ IH1 _ IH2]; simpl.
  - discriminate.
  - now rewrite orb_false_r.
  - rewrite orb_false_r. intros E. apply Ascii.eqb_eq in E. now subst.
  - rewrite occurs_app, orb_true_iff. intros [E | E]; rewrite orb_true_iff; auto.
  - intros E. rewrite orb_true_iff; auto.
  - intros E. rewrite orb_true_iff; auto.
  - discriminate.
  - rewrite occurs_app, orb_true_iff. intros [E | E]; auto.
Qed.

(** A percent token is not taken for a pixel dimension. *)
Lemma percent_token_not_pixel (n : numeral) :
  test isPixelDimension (numeral_string n +:+ "%") = false.
Proof.
  destruct (test isPixelDimension (numeral_string n +:+ "%")) eqn:E; [| reflexivity].
  apply test_lang in E. apply (lang_alphabet _ _ "%"%char) in E; [discriminate |].
  rewrite occurs_app. apply orb_true_r.
Qed.

(** *** Scanning a numeral reads its value *)

Lemma scanDigits_digits (ds : list digit) (rest : string) (m : Z) (k : nat) :
  scanDigits (digits_string ds +:+ rest) m k =
  scanDigits rest (fold_left (fun m d => (10 * m + digit_val d)%Z) ds m) (k + length ds).
Proof.
  revert m k. induction ds as [|d ds IH]; intros m k.
  - simpl. now rewrite app_nil_l, Nat.add_0_r.
  - simpl digits_string. rewrite app_cons. simpl.
    rewrite digit_is_nat, digit_val_nat, IH. f_equal. lia.
Qed.

(** What may follow a numeral in the strings the source scans: nothing, or
    percent signs. *)
Lemma scanDigits_stop (rest : string) (m : Z) (k : nat) :
  rest = "" \/ (exists t, rest = String "%" t) ->
  scanDigits rest m k = (m, k, rest).
Proof. intros [-> | [t ->]]; reflexivity. Qed.

Lemma scanDecimal_numeral_rest (n : numeral) (rest : string) :
  rest = "" \/ (exists t, rest = String "%" t) ->
  scanDecimal (numeral_string n +:+ rest) = Some (numeral_value n, rest).
Proof.
  intros Hrest. destruct n as [neg d more frac].
  assert (Hbody :
    (let '(m, k, s2) :=
       scanDigits (digits_string (d :: more) +:+ frac_string frac +:+ rest) 0 0 in
     if (k =? 0)%nat then None
     else match s2 with
          | String "." s3 =>
              let '(m', k', s4) := scanDigits s3 m 0 in Some (decimal neg m' k', s4)
          | _ => Some (decimal neg m 0, s2)
          end) = Some (numeral_value (Numeral neg d more frac), rest)).
  { rewrite scanDigits_digits.
    unfold numeral_value, num_int. cbn [num_neg num_first num_more num_frac].
    destruct frac as [f|]; cbn [frac_string default].
    - rewrite app_cons. cbn [scanDigits Ascii.is_nat]. cbn [Nat.add length Nat.eqb].
      rewrite scanDigits_digits, (scanDigits_stop rest) by assumption.
      unfold digits_value. rewrite fold_left_app. reflexivity.
    - rewrite app_nil_l, (scanDigits_stop rest) by assumption.
      cbn [Nat.add length Nat.eqb]. rewrite app_nil_r.
      destruct Hrest as [-> | [t ->]]; reflexivity. }
  unfold scanDecimal, numeral_string, num_int.
  cbn [num_neg num_first num_more num_frac]. rewrite !app_assoc.
  destruct neg.
  - exact Hbody.
  - rewrite app_nil_l. destruct d; exact Hbody.
Qed.

Lemma scanDecimal_numeral (n : numeral) :
  scanDecimal (numeral_string n) = Some (numeral_value n, "").
Proof.
  rewrite <- (app_empty_r (numeral_string n)) at 1.
  apply scanDecimal_numeral_rest. now left.
Qed.

Lemma parseFloat_numeral (n : numeral) : parseFloat (numeral_string n) = numeral_value n.
Proof. unfold parseFloat. now rewrite scanDecimal_numeral. Qed.

Lemma toNumber_numeral (n : numeral) : toNumber (numeral_string n) = numeral_value n.
Proof. unfold toNumber. now rewrite scanDecimal_numeral. Qed.

(** A numeral followed by a percent sign is not a number. *)
Lemma toNumber_numeral_percent (n : numeral) :
  toNumber (numeral_string n +:+ "%") = nan.
Proof.
  unfold toNumber. rewrite scanDecimal_numeral_rest; [reflexivity |].
  right. now exists "".
Qed.

End NumeralFacts.

(** ** [resolveStyle] *)

Module ResolveStyleFacts.
Import JS JSFacts ResolveStyle NumeralFacts.

Lemma substring_split (s : string) (k : nat) :
  k <= String.length s ->
  s = String.substring 0 k s +:+ String.substring k (String.length s - k) s.
Proof.
  revert k. induction s as [|c s IH]; intros [|k] Hk; simpl in *; try lia.
  - reflexivity.
  - rewrite app_nil_l. f_equal. clear. induction s as [|d s IH]; simpl; [reflexivity | now rewrite <- IH].
  - rewrite app_cons. f_equal. apply IH. lia.
Qed.

Lemma substring_suffix (p u : string) :
  String.substring (String.length p) (String.length u) (p +:+ u) = u.
Proof.
  induction p as [|c p IH].
  - rewrite app_nil_l. simpl. induction u as [|d u IHu]; simpl; [reflexivity |].
    destruct u; simpl in *; f_equal; auto.
  - rewrite app_cons. simpl. exact IH.
Qed.

(** [endsWith] holds exactly of the strings that end in the suffix. *)
Lemma endsWith_spec (s suffix : string) :
  endsWith s suffix = true <-> exists p, s = p +:+ suffix.
Proof.
  unfold endsWith. rewrite andb_true_iff, Nat.leb_le, String.eqb_eq. split.
  - intros [Hle E].
    exists (String.substring 0 (String.length s - String.length suffix) s).
    pose proof (substring_split s (String.length s - String.length suffix)) as Hs.
    replace (String.length s - (String.length s - String.length suffix))
      with (String.length suffix) in Hs by lia.
    rewrite E in Hs. apply Hs. lia.
  - intros [p ->]. rewrite app_length. split; [lia |].
    replace (String.length p + String.length suffix - String.length suffix)
      with (String.length p) by lia.
    apply substring_suffix.
Qed.

(** [mapValues] keeps the keys and maps each value with its key. *)
Lemma resolveStyle_lookup `{StyleCodec}
    (style : gmap string value) (context : option SizingContext) (property : string) :
  resolveStyle style context !! property =
  resolveValue context property <$> parseCssStyleValue (formatCssStyleValue style) !! property.
Proof.
  unfold resolveStyle. rewrite map_lookup_imap.
  now destruct (parseCssStyleValue (formatCssStyleValue style) !! property).
Qed.

Example resolve_marginBottom :
  resolveValue (Some {| width := None; height := Some 100%float |}) "marginBottom" "5%"
  = VNum 5%float.
Proof. vm_compute. reflexivity. Qed.

Example resolve_left_fraction :
  resolveValue None "left" "50%" = VNum 0.5%float.
Proof. vm_compute. reflexivity. Qed.

Example resolve_pixels :
  resolveValue None "marginTop" "-12.5px" = VNum (-12.5)%float.
Proof. vm_compute. reflexivity. Qed.

Example resolve_double_percent :
  resolveValue None "left" "50%%" = VNum nan.
Proof. vm_compute. reflexivity. Qed.

(** C2.  A property whose parsed value is a pixel token, a numeral [n]
    followed by [px], resolves to the number [n] denotes, whatever the
    sizing context is and also when there is none. *)
Theorem resolveStyle_pixel `{StyleCodec}
    (style : gmap string value) (context : option SizingContext)
    (property : string) (n : numeral) :
  parseCssStyleValue (formatCssStyleValue style) !! property
    = Some (numeral_string n +:+ "px") ->
  resolveStyle style context !! property = Some (VNum (numeral_value n)).
Proof.
  intros Hp. rewrite resolveStyle_lookup, Hp. simpl. unfold resolveValue.
  rewrite pixel_token_matches.
  change 2 with (String.length "px"). now rewrite slice_end_app, parseFloat_numeral.
Qed.

Lemma resolveStyle_pixel_witness :
  @parseCssStyleValue (constCodec {[ "marginTop" := "8px" ]})
    (@formatCssStyleValue (constCodec {[ "marginTop" := "8px" ]}) ∅) !! "marginTop"
    = Some "8px" /\
  @resolveStyle (constCodec {[ "marginTop" := "8px" ]}) ∅
    (Some {| width := Some 400%float; height := Some 300%float |}) !! "marginTop"
    = Some (VNum 8%float).
Proof.
  split; [vm_compute; reflexivity |].
  rewrite (@resolveStyle_pixel (constCodec {[ "marginTop" := "8px" ]}) ∅ _
             "marginTop" (Numeral false d8 [] None));
    vm_compute; reflexivity.
Defined.

(** C1.  A property whose parsed value is a percent token, a numeral [p]
    followed by [%], resolves to [p / 100] times a multiplier: the
    context's [height] when the property name ends in [Top] or [Bottom],
    its [width] otherwise, and [1] when the context, or that field of it,
    is missing.  So against [{width: W, height: H}] the result is
    [p / 100 * H] or [p / 100 * W], and without a context it is
    [p / 100]. *)
Theorem resolveStyle_percent `{StyleCodec}
    (style : gmap string value) (context : option SizingContext)
    (property : string) (p : numeral) :
  parseCssStyleValue (formatCssStyleValue style) !! property
    = Some (numeral_string p +:+ "%") ->
  let vertical := endsWith property "Top" || endsWith property "Bottom" in
  resolveStyle style context !! property =
    Some (VNum (numeral_value p / 100 *
                default 1 (context ≫= if vertical then height else width))%float) /\
  (forall W H : number,
     context = Some {| width := Some W; height := Some H |} ->
     resolveStyle style context !! property =
       Some (VNum (numeral_value p / 100 * if vertical then H else W)%float)) /\
  (context ≫= (if vertical then height else width) = None ->
     resolveStyle style context !! property =
       Some (VNum (numeral_value p / 100)%float)).
Proof.
  intros Hp vertical.
  assert (E : resolveStyle style context !! property =
              Some (VNum (numeral_value p / 100 *
                default 1 (context ≫= if vertical then height else width))%float)).
  { rewrite resolveStyle_lookup, Hp. simpl. unfold resolveValue.
    rewrite percent_token_not_pixel, percent_token_matches.
    unfold resolvePercentDimension.
    change 1 with (String.length "%") at 1 2.
    rewrite slice_end_app, toNumber_numeral.
    subst vertical. now destruct (endsWith property "Top" || endsWith property "Bottom"). }
  repeat apply conj.
  - exact E.
  - intros W Hgt ->. rewrite E. now destruct vertical.
  - intros Hn. rewrite E, Hn. simpl. now rewrite mul_one_r.
Qed.

Lemma resolveStyle_percent_witness :
  @parseCssStyleValue (constCodec {[ "marginBottom" := "5%" ]})
    (@formatCssStyleValue (constCodec {[ "marginBottom" := "5%" ]}) ∅) !! "marginBottom"
    = Some "5%" /\
  @resolveStyle (constCodec {[ "marginBottom" := "5%" ]}) ∅
    (Some {| width := Some 400%float; height := Some 100%float |}) !! "marginBottom"
    = Some (VNum 5%float).
Proof.
  split; [vm_compute; reflexivity |].
  destruct (@resolveStyle_percent (constCodec {[ "marginBottom" := "5%" ]}) ∅
              (Some {| width := Some 400%float; height := Some 100%float |})
              "marginBottom" (Numeral false d5 [] None)) as (_ & HWH & _);
    [vm_compute; reflexivity |].
  rewrite (HWH _ _ eq_refl). vm_compute. reflexivity.
Defined.

(** A value with two percent signs after the numeral still matches
    [isPercentDimension], whose last item is [%+]; only one sign is cut off,
    what is left is not a number, and the property resolves to [NaN]. *)
Theorem resolveStyle_doubled_percent `{StyleCodec}
    (style : gmap string value) (context : option SizingContext)
    (property : string) (p : numeral) :
  parseCssStyleValue (formatCssStyleValue style) !! property
    = Some (numeral_string p +:+ "%%") ->
  resolveStyle style context !! property = Some (VNum nan).
Proof.
  intros Hp. rewrite resolveStyle_lookup, Hp. simpl. unfold resolveValue.
  assert (Hpx : test isPixelDimension (numeral_string p +:+ "%%") = false).
  { destruct (test isPixelDimension (numeral_string p +:+ "%%")) eqn:E; [| reflexivity].
    apply test_lang in E. apply (lang_alphabet _ _ "%"%char) in E; [discriminate |].
    rewrite occurs_app. apply orb_true_r. }
  assert (Hpc : test isPercentDimension (numeral_string p +:+ "%%") = true).
  { apply test_lang. apply lang_seq; [apply lang_numberBody |].
    apply (lang_seq (Chr "%") (Star (Chr "%")) (String "%" "") (String "%" ""));
      [constructor |].
    apply (lang_star_cons (Chr "%") (String "%" "") ""); constructor. }
  rewrite Hpx, Hpc. unfold resolvePercentDimension.
  change (numeral_string p +:+ "%%") with (numeral_string p +:+ "%" +:+ "%").
  rewrite <- app_assoc. change 1 with (String.length "%") at 1 2.
  rewrite slice_end_app, toNumber_numeral_percent.
  change (nan / 100)%float with nan.
  now destruct (endsWith property "Top" || endsWith property "Bottom");
    rewrite nan_mul.
Qed.

Lemma resolveStyle_doubled_percent_witness :
  @resolveStyle (constCodec {[ "left" := "50%%" ]}) ∅ None !! "left" = Some (VNum nan).
Proof.
  apply (@resolveStyle_doubled_percent (constCodec {[ "left" := "50%%" ]}) ∅ None
           "left" (Numeral false d5 [d0] None)).
  vm_compute; reflexivity.
Defined.

(** C8.  A property whose parsed value matches neither the pixel nor the
    percent pattern is returned as it is; [resolveStyle] has no failing
    path for it. *)
Theorem resolveStyle_passthrough `{StyleCodec}
    (style : gmap string value) (context : option SizingContext)
    (property v : string) :
  parseCssStyleValue (formatCssStyleValue style) !! property = Some v ->
  test isPixelDimension v = false ->
  test isPercentDimension v = false ->
  resolveStyle style context !! property = Some (VStr v).
Proof.
  intros Hp Hpx Hpc. rewrite resolveStyle_lookup, Hp. simpl.
  unfold resolveValue. now rewrite Hpx, Hpc.
Qed.

Lemma resolveStyle_passthrough_witness :
  @parseCssStyleValue (constCodec {[ "color" := "#999" ]})
    (@formatCssStyleValue (constCodec {[ "color" := "#999" ]}) ∅) !! "color"
    = Some "#999" /\
  @resolveStyle (constCodec {[ "color" := "#999" ]}) ∅ None !! "color"
    = Some (VStr "#999").
Proof.
  split; [vm_compute; reflexivity |].
  apply (@resolveStyle_passthrough (constCodec {[ "color" := "#999" ]}) ∅ None
           "color" "#999"); vm_compute; reflexivity.
Defined.

End ResolveStyleFacts.

(** ** The bar chart's axis layout *)

Module BarChartFacts.
Import JS JSArray JSFacts ResolveStyle BarChart Samples.

Example left_label_example :
  fst (@addAxisPointer labelCodec
         (contextOf (pointerArgs None None (Some "line") (Some "left")))
         box [] axis50x20 Y) = box.
Proof. vm_compute. reflexivity. Qed.

Example bottom_label_example :
  Layout.innerHeight
    (fst (@addAxisPointer labelCodec
         (contextOf (pointerArgs (Some "line") (Some "bottom") None None))
         box [] axis50x20 X)) = 296%float.
Proof. vm_compute. reflexivity. Qed.

Example top_label_example :
  fst (@addAxisPointer labelCodec
         (contextOf (pointerArgs (Some "line") (Some "top") None None))
         box [] axis50x20 X) = Layout.mk 0 0 400 300 0 28 400 262 0 0.
Proof. vm_compute. reflexivity. Qed.

Example right_label_example :
  fst (@addAxisPointer labelCodec
         (contextOf (pointerArgs None None (Some "shadow") (Some "right")))
         box [] axis50x20 Y) = Layout.mk 0 0 400 300 0 0 332 300 0 0.
Proof. vm_compute. reflexivity. Qed.

(** *** [addAxisPointer] *)

Lemma addAxisPointer_fst `{StyleCodec}
    (context : Context) (layout : Layout.t) (config : object)
    (axisInfo : AxisInfo.t) (axis : Axis) :
  fst (addAxisPointer context layout config axisInfo axis) =
  if pointerOff (pointerArg (args context) axis) then layout
  else fst (placeLabel (default "bottom" (pointerLabelArg (args context) axis))
              (resolveStyle (pointerLabelStyleOf (styles context) axis)
                 (Layout.asContext (BarChart.layout context)))
              layout axisInfo axis).
Proof.
  unfold addAxisPointer, addAxisPointerBody.
  destruct (pointerOff (pointerArg (args context) axis)); [reflexivity |].
  now destruct (placeLabel _ _ layout axisInfo axis).
Qed.

(** C3, as the code has it.  With a pointer configured, a [top] label takes
    its size plus its margins off the inner height and a [right] label takes
    them off the inner width; a [bottom] label takes only its top margin off
    the inner height, and a [left] label leaves the inner rectangle as it
    was.  Without a pointer (type missing, empty or [none]) or with the label
    position [none], every field of the returned layout is the input's. *)
Theorem addAxisPointer_layout `{StyleCodec}
    (context : Context) (layout : Layout.t) (config : object)
    (axisInfo : AxisInfo.t) (axis : Axis) :
  let type := pointerArg (args context) axis in
  let position := default "bottom" (pointerLabelArg (args context) axis) in
  let labelStyle :=
    resolveStyle (pointerLabelStyleOf (styles context) axis)
      (Layout.asContext (BarChart.layout context)) in
  let size := labelSize labelStyle axisInfo axis in
  let margins := labelMargins labelStyle axis in
  let newLayout := fst (addAxisPointer context layout config axisInfo axis) in
  (pointerOff type = true -> newLayout = layout) /\
  (pointerOff type = false ->
     (position = "top" ->
        Layout.innerHeight newLayout = (Layout.innerHeight layout - (size + margins))%float /\
        Layout.innerWidth newLayout = Layout.innerWidth layout /\
        Layout.innerX newLayout = Layout.innerX layout) /\
     (position = "right" ->
        Layout.innerWidth newLayout = (Layout.innerWidth layout - (size + margins))%float /\
        Layout.innerHeight newLayout = Layout.innerHeight layout /\
        Layout.innerX newLayout = Layout.innerX layout /\
        Layout.innerY newLayout = Layout.innerY layout) /\
     (position = "bottom" ->
        Layout.innerHeight newLayout =
          (Layout.innerHeight layout - num labelStyle "marginTop")%float /\
        Layout.innerWidth newLayout = Layout.innerWidth layout /\
        Layout.innerX newLayout = Layout.innerX layout /\
        Layout.innerY newLayout = Layout.innerY layout) /\
     (position = "left" -> newLayout = layout) /\
     (position = "none" -> newLayout = layout)).
Proof.
  cbv zeta. rewrite addAxisPointer_fst.
  generalize (resolveStyle (pointerLabelStyleOf (styles context) axis)
                (Layout.asContext (BarChart.layout context))) as labelStyle.
  generalize (default "bottom" (pointerLabelArg (args context) axis)) as position.
  intros position labelStyle.
  destruct (pointerOff (pointerArg (args context) axis)).
  - split; [reflexivity | discriminate].
  - split; [discriminate | intros _].
    repeat apply conj; intros ->; try reflexivity; repeat apply conj; reflexivity.
Qed.

Lemma addAxisPointer_layout_witness :
  Layout.innerWidth
    (fst (@addAxisPointer labelCodec
            (contextOf (pointerArgs None None (Some "shadow") (Some "right")))
            box [] axis50x20 Y)) = 332%float.
Proof.
  pose proof (@addAxisPointer_layout labelCodec
                (contextOf (pointerArgs None None (Some "shadow") (Some "right")))
                box [] axis50x20 Y) as [_ Hon].
  destruct (Hon eq_refl) as (_ & Hright & _).
  destruct (Hright eq_refl) as [Hw _].
  rewrite Hw. vm_compute. reflexivity.
Defined.

(** C3 as stated fails for the [left] position: the Y pointer label below
    is 60 wide with margins of 8, and the inner rectangle stays 400 wide
    and at the same place. *)
Lemma addAxisPointer_left_counterexample :
  let context := contextOf (pointerArgs None None (Some "line") (Some "left")) in
  let labelStyle :=
    @resolveStyle labelCodec (pointerLabelStyleOf (styles context) Y)
      (Layout.asContext (BarChart.layout context)) in
  let newLayout := fst (@addAxisPointer labelCodec context box [] axis50x20 Y) in
  (labelSize labelStyle axis50x20 Y + labelMargins labelStyle Y)%float = 68%float /\
  newLayout = box /\
  Layout.innerWidth newLayout <>
    (Layout.innerWidth box
     - (labelSize labelStyle axis50x20 Y + labelMargins labelStyle Y))%float.
Proof.
  repeat split; try (vm_compute; reflexivity). float_neq.
Qed.

(** *** [computeYAxisInfo] *)

(** C5.  For a style whose left and right margins are the numbers [ml] and
    [mr], the Y axis is as wide as the widest label plus [ml] and [mr], and
    its height overflow is half the measured height of the label of the
    maximum value. *)
Theorem computeYAxisInfo_width_overflow `{TextMetricsService} `{NumberToString}
    (style : gmap string ResolveStyle.value) (labels : list string)
    (maxValue ml mr : number) :
  style !! "marginLeft" = Some (VNum ml) ->
  style !! "marginRight" = Some (VNum mr) ->
  AxisInfo.width (computeYAxisInfo style labels maxValue) =
    (TextMetrics.width (computeMaxTextMetrics labels style None) + ml + mr)%float /\
  AxisInfo.heightOverflow (computeYAxisInfo style labels maxValue) =
    Some (TextMetrics.height
            (computeTextMetrics (numberToString maxValue) style None) / 2)%float.
Proof.
  intros Hl Hr. unfold computeYAxisInfo, num. simpl. now rewrite Hl, Hr.
Qed.

Lemma computeYAxisInfo_width_overflow_witness :
  let style : gmap string ResolveStyle.value :=
    {[ "marginLeft" := VNum 8%float; "marginRight" := VNum 8%float ]} in
  let info :=
    @computeYAxisInfo fixedPitchService threeDigits style ["10"; "1000"; "100"] 1000%float in
  AxisInfo.width info = 44%float /\ AxisInfo.heightOverflow info = Some 7%float.
Proof.
  cbv zeta.
  destruct (@computeYAxisInfo_width_overflow fixedPitchService threeDigits
              {[ "marginLeft" := VNum 8%float; "marginRight" := VNum 8%float ]}
              ["10"; "1000"; "100"] 1000%float 8%float 8%float)
    as [Hw Ho]; [vm_compute; reflexivity | vm_compute; reflexivity |].
  rewrite Hw, Ho. split; vm_compute; reflexivity.
Defined.

(** *** [computeXAxisInfo] *)

(** C4, as the code has it.  The X axis keeps the inner width less the Y
    axis width and the left and right border widths.  [maxLabelWidth] is
    that width over 10 for a value axis, and for a category axis over the
    smaller of [categoryAxisMaxLabelCount] and the number of labels: the
    number of labels when no maximum is given. *)
Theorem computeXAxisInfo_width_maxLabelWidth `{TextMetricsService}
    (a : Args) (layout : Layout.t) (style : gmap string ResolveStyle.value)
    (labels : list string) (yAxisInfo : AxisInfo.t) (isHorizontal : bool) :
  let info := computeXAxisInfo a layout style labels yAxisInfo isHorizontal in
  AxisInfo.width info =
    (Layout.innerWidth layout - AxisInfo.width yAxisInfo
     - Layout.borderLeftWidth layout - Layout.borderRightWidth layout)%float /\
  (isHorizontal = true ->
     AxisInfo.maxLabelWidth info = Some (AxisInfo.width info / 10)%float) /\
  (isHorizontal = false ->
     AxisInfo.maxLabelWidth info =
       Some (AxisInfo.width info /
             Math_min (default (lengthOf labels) (categoryAxisMaxLabelCount a))
                      (lengthOf labels))%float) /\
  (isHorizontal = false -> categoryAxisMaxLabelCount a = None ->
     AxisInfo.maxLabelWidth info = Some (AxisInfo.width info / lengthOf labels)%float).
Proof.
  cbv zeta. unfold computeXAxisInfo. simpl.
  repeat apply conj; try reflexivity.
  - now intros ->.
  - now intros ->.
  - intros -> ->. simpl. now rewrite Math_min_same.
Qed.

Lemma computeXAxisInfo_width_maxLabelWidth_witness :
  AxisInfo.maxLabelWidth
    (@computeXAxisInfo fixedPitchService noArgs box ∅ ["a"; "b"; "c"; "d"] axis50x20 false)
  = Some 87.5%float.
Proof.
  destruct (@computeXAxisInfo_width_maxLabelWidth fixedPitchService
              noArgs box ∅ ["a"; "b"; "c"; "d"] axis50x20 false)
    as (_ & _ & _ & Hn).
  rewrite (Hn eq_refl eq_refl). vm_compute. reflexivity.
Defined.

(** C4 as stated fails when [categoryAxisMaxLabelCount] is below the number
    of labels: with four labels and a maximum of two, the remaining width
    of 350 is divided by 2 and not by 4. *)
Lemma computeXAxisInfo_maxLabelCount_counterexample :
  let a :=
    {| categoryAxisSort := None; categoryAxisMaxLabelCount := Some 2%float;
       xAxisPointer := None; yAxisPointer := None;
       xAxisPointerLabel := None; yAxisPointerLabel := None;
       xAxisTooltip := None; yAxisTooltip := None;
       xAxisFormatter := None; yAxisFormatter := None |} in
  let labels := ["a"; "b"; "c"; "d"] in
  let info := @computeXAxisInfo fixedPitchService a box ∅ labels axis50x20 false in
  AxisInfo.width info = 350%float /\
  AxisInfo.maxLabelWidth info = Some 175%float /\
  (AxisInfo.width info / lengthOf labels)%float = 87.5%float /\
  AxisInfo.maxLabelWidth info <> Some (AxisInfo.width info / lengthOf labels)%float.
Proof.
  cbv zeta. repeat apply conj; try (vm_compute; reflexivity).
  intros E. apply (f_equal (default nan)) in E. revert E. float_neq.
Qed.

(** *** Order of the axis computations *)

(** C6.  The axis steps of [generatePlotConfig] size the Y axis first, from
    the Y axis style, the Y labels and the maximum value alone, and the X
    axis second, netting out the Y axis width: the X axis is as wide as the
    inner width of the layout the Y pointer step returned, less the Y axis
    width and that layout's two border widths; without a Y pointer this is
    the inner width passed in less the width of the widest Y label, the Y
    axis style's left and right margins and the borders.  So the X axis
    width changes with the Y labels, as under the sample measurer where Y
    labels of different widths give different X axis widths, while the Y
    axis info is the same for any two lists of X labels, whatever the
    measurer: in vertical orientation the X labels are the categories, in
    horizontal orientation the value texts. *)
Theorem axis_sizing_order :
  (forall (codec : StyleCodec) (service : TextMetricsService) (toStr : NumberToString)
          (context : Context) (layout : Layout.t)
          (categories valueTexts : list string) (maxValue : number)
          (isHorizontal : bool),
     let infos := axisInfos context layout categories valueTexts maxValue isHorizontal in
     let yStyle :=
       resolveStyle (yAxisStyle (styles context))
         (Layout.asContext (BarChart.layout context)) in
     let yLabels := if isHorizontal then categories else valueTexts in
     let afterY := fst (addAxisPointer context layout [] (fst infos) Y) in
     fst infos = computeYAxisInfo yStyle yLabels maxValue /\
     AxisInfo.width (snd infos) =
       (Layout.innerWidth afterY - AxisInfo.width (fst infos)
        - Layout.borderLeftWidth afterY - Layout.borderRightWidth afterY)%float /\
     (pointerOff (yAxisPointer (args context)) = true ->
        AxisInfo.width (snd infos) =
          (Layout.innerWidth layout
           - (TextMetrics.width (computeMaxTextMetrics yLabels yStyle None)
              + num yStyle "marginLeft" + num yStyle "marginRight")
           - Layout.borderLeftWidth layout - Layout.borderRightWidth layout)%float)) /\
  (exists yLabels1 yLabels2 : list string,
     AxisInfo.width
       (snd (@axisInfos labelCodec fixedPitchService threeDigits
               (contextOf noArgs) box ["a"; "b"] yLabels1 100%float false)) <>
     AxisInfo.width
       (snd (@axisInfos labelCodec fixedPitchService threeDigits
               (contextOf noArgs) box ["a"; "b"] yLabels2 100%float false))) /\
  (forall (codec : StyleCodec) (service : TextMetricsService) (toStr : NumberToString)
          (context : Context) (layout : Layout.t)
          (yLabels xLabels1 xLabels2 : list string) (maxValue : number),
     fst (axisInfos context layout xLabels1 yLabels maxValue false) =
     fst (axisInfos context layout xLabels2 yLabels maxValue false) /\
     fst (axisInfos context layout yLabels xLabels1 maxValue true) =
     fst (axisInfos context layout yLabels xLabels2 maxValue true)).
Proof.
  split; [| split].
  - intros codec service toStr context layout categories valueTexts maxValue isHorizontal.
    cbv zeta. unfold axisInfos. cbn [fst snd].
    split; [reflexivity |]. split; [reflexivity |].
    intros Hoff. unfold addAxisPointer. cbn [pointerArg]. rewrite Hoff.
    reflexivity.
  - exists ["10"], ["1000"]. float_neq.
  - split; reflexivity.
Qed.

(** *** [getCategories] *)

Lemma elem_of_uniq (a : string) (l : list string) : a ∈ uniq l <-> a ∈ l.
Proof.
  induction l as [|b l IH]; simpl; [reflexivity |].
  rewrite !elem_of_cons, list_elem_of_filter, IH. split.
  - intros [-> | [_ Hl]]; auto.
  - intros [-> | Hl]; [now left |].
    destruct (decide (a = b)) as [-> | Hne]; [now left | now right].
Qed.

(** The values [firstSeenValues] yields are distinct, and they are the
    names that occur in the series. *)
Lemma uniq_NoDup (l : list string) : NoDup (uniq l).
Proof.
  induction l as [|b l IH]; simpl; constructor.
  - rewrite list_elem_of_filter. now intros [Hne _].
  - now apply NoDup_filter.
Qed.

Lemma insert_perm (before : string -> string -> bool) (a : string) (l : list string) :
  insert before a l ≡ₚ a :: l.
Proof.
  induction l as [|b l IH]; simpl; [reflexivity |].
  destruct (before a b); [reflexivity |].
  rewrite IH. apply Permutation_swap.
Qed.

(** Sorting rearranges: nothing is added, dropped or repeated. *)
Lemma sortBy_perm (before : string -> string -> bool) (l : list string) :
  sortBy before l ≡ₚ l.
Proof.
  induction l as [|a l IH]; simpl; [reflexivity |].
  unfold sortBy in *. simpl. now rewrite insert_perm, IH.
Qed.

Example getCategories_bogus :
  @getCategories firstSeenValues
    {| categoryAxisSort := Some (SortKeyword "bogus"); categoryAxisMaxLabelCount := None;
       xAxisPointer := None; yAxisPointer := None;
       xAxisPointerLabel := None; yAxisPointerLabel := None;
       xAxisTooltip := None; yAxisTooltip := None;
       xAxisFormatter := None; yAxisFormatter := None |}
    [ {| label := None;
         data := [ {| name := "pear"; value := 1 |}; {| name := "apple"; value := 2 |} ] |};
      {| label := None;
         data := [ {| name := "fig"; value := 3 |}; {| name := "pear"; value := 4 |} ] |} ]
  = (["pear"; "apple"; "fig"], ["Invalid 'categoryAxisSort' value: bogus"]).
Proof. vm_compute. reflexivity. Qed.

Example getCategories_desc :
  fst (@getCategories firstSeenValues
    {| categoryAxisSort := Some (SortKeyword "desc"); categoryAxisMaxLabelCount := None;
       xAxisPointer := None; yAxisPointer := None;
       xAxisPointerLabel := None; yAxisPointerLabel := None;
       xAxisTooltip := None; yAxisTooltip := None;
       xAxisFormatter := None; yAxisFormatter := None |}
    [ {| label := None;
         data := [ {| name := "pear"; value := 1 |}; {| name := "apple"; value := 2 |} ] |};
      {| label := None;
         data := [ {| name := "fig"; value := 3 |}; {| name := "pear"; value := 4 |} ] |} ])
  = ["pear"; "fig"; "apple"].
Proof. vm_compute. reflexivity. Qed.

(** C7.  With a [categoryAxisSort] string that is none of [firstSeries],
    [asc] and [desc], [getCategories] returns the categories in the order
    [getUniqueDatasetValues] found them and writes one warning; the model
    has no failing path, so nothing is thrown. *)
Theorem getCategories_invalid_keyword `{DatasetUtils}
    (a : Args) (series : list Series) (keyword : string) :
  categoryAxisSort a = Some (SortKeyword keyword) ->
  keyword <> "firstSeries" -> keyword <> "asc" -> keyword <> "desc" ->
  getCategories a series =
    (getUniqueDatasetValues series "name",
     ["Invalid 'categoryAxisSort' value: " +:+ keyword]).
Proof.
  intros Ha H1 H2 H3. unfold getCategories. rewrite Ha. simpl.
  apply String.eqb_neq in H1, H2, H3. now rewrite H1, H2, H3.
Qed.

Lemma getCategories_invalid_keyword_witness :
  @getCategories firstSeenValues
    {| categoryAxisSort := Some (SortKeyword "bogus"); categoryAxisMaxLabelCount := None;
       xAxisPointer := None; yAxisPointer := None;
       xAxisPointerLabel := None; yAxisPointerLabel := None;
       xAxisTooltip := None; yAxisTooltip := None;
       xAxisFormatter := None; yAxisFormatter := None |}
    [ {| label := None;
         data := [ {| name := "pear"; value := 1 |}; {| name := "apple"; value := 2 |} ] |} ]
  = (["pear"; "apple"], ["Invalid 'categoryAxisSort' value: bogus"]).
Proof.
  rewrite (@getCategories_invalid_keyword firstSeenValues _ _ "bogus");
    [vm_compute; reflexivity | reflexivity | discriminate | discriminate | discriminate].
Defined.

(** C10.  Whatever [categoryAxisSort] is, a keyword, a comparator, any
    other string or a value of another kind, the categories returned are a
    rearrangement of the values [getUniqueDatasetValues] found. *)
Theorem getCategories_permutation `{DatasetUtils} (a : Args) (series : list Series) :
  fst (getCategories a series) ≡ₚ getUniqueDatasetValues series "name".
Proof.
  unfold getCategories.
  destruct (default (SortKeyword "firstSeries") (categoryAxisSort a))
    as [keyword | comparefn | text]; simpl.
  - destruct (String.eqb keyword "firstSeries"); [reflexivity |].
    destruct (String.eqb keyword "asc"); [apply sortBy_perm |].
    destruct (String.eqb keyword "desc"); [| reflexivity].
    simpl. rewrite <- Permutation_rev. apply sortBy_perm.
  - apply sortBy_perm.
  - reflexivity.
Qed.

End BarChartFacts.

(** ** What the operations do to the objects they are given *)

Module HeapFacts.
Import JS JSArray ResolveStyle BarChart Samples.
Import Heap.

Lemma fresh_unused (h : heap) : h !! fresh (dom h) = None.
Proof. apply not_elem_of_dom. apply is_fresh. Qed.

Lemma alloc_spec (c : cell) (h : heap) :
  exists r, alloc c h = Some (r, <[r := c]> h) /\ h !! r = None.
Proof. exists (fresh (dom h)). split; [reflexivity | apply fresh_unused]. Qed.

Lemma sortInPlace_spec (f : list string -> list string) (l : loc)
    (xs : list string) (h : heap) :
  h !! l = Some (NameArray xs) ->
  sortInPlace f l h = Some (tt, <[l := NameArray (f xs)]> h).
Proof.
  intros Hl. unfold sortInPlace, mbind, M_bind, readNames. now rewrite Hl.
Qed.

(** [resolveStyle] builds a new object and changes no other. *)
Lemma resolveStyle_frame `{StyleCodec}
    (style : loc) (s : gmap string ResolveStyle.value)
    (context : option SizingContext) (h : heap) :
  h !! style = Some (StyleObject s) ->
  exists r h',
    Heap.resolveStyle style context h = Some (r, h') /\
    h !! r = None /\
    h' !! r = Some (StyleObject (ResolveStyle.resolveStyle s context)) /\
    forall l, l <> r -> h' !! l = h !! l.
Proof.
  intros Hs. unfold Heap.resolveStyle, mbind, M_bind, readStyle. rewrite Hs.
  destruct (alloc_spec (StyleObject (ResolveStyle.resolveStyle s context)) h)
    as (r & -> & Hr).
  exists r, (<[r := StyleObject (ResolveStyle.resolveStyle s context)]> h).
  repeat split; [assumption | apply lookup_insert_eq |].
  intros l Hl. now apply lookup_insert_ne.
Qed.

(** [addAxisPointer] writes to [config] and to nothing else that exists;
    the layout it returns is its argument when no pointer is configured and
    a new object otherwise. *)
Lemma addAxisPointer_frame `{StyleCodec}
    (context : Context) (layout config : loc) (l : Layout.t) (c : object)
    (axisInfo : AxisInfo.t) (axis : Axis) (h : heap) :
  h !! layout = Some (LayoutObject l) ->
  h !! config = Some (ConfigObject c) ->
  exists r h',
    Heap.addAxisPointer context layout config axisInfo axis h = Some (r, h') /\
    h' !! layout = Some (LayoutObject l) /\
    h' !! r = Some (LayoutObject (fst (BarChart.addAxisPointer context l c axisInfo axis))) /\
    h' !! config = Some (ConfigObject (snd (BarChart.addAxisPointer context l c axisInfo axis))) /\
    (if pointerOff (pointerArg (args context) axis)
     then r = layout /\ h' = h
     else h !! r = None) /\
    forall l', l' <> r -> l' <> config -> h' !! l' = h !! l'.
Proof.
  intros Hl Hc. unfold Heap.addAxisPointer, BarChart.addAxisPointer.
  destruct (pointerOff (pointerArg (args context) axis)).
  - exists layout, h. simpl. repeat split; auto.
  - unfold mbind, M_bind, readLayout, readConfig, write. rewrite Hl, Hc.
    destruct (addAxisPointerBody context l c axisInfo axis
                (default "" (pointerArg (args context) axis)))
      as [newLayout c'] eqn:Eb.
    destruct (alloc_spec (LayoutObject newLayout) (<[config := ConfigObject c']> h))
      as (r & -> & Hr).
    assert (Hrc : r <> config).
    { intros ->. rewrite lookup_insert_eq in Hr. discriminate. }
    assert (Hrl : r <> layout).
    { intros ->. rewrite lookup_insert_ne in Hr by congruence. congruence. }
    assert (Hlc : layout <> config) by congruence.
    exists r, (<[r := LayoutObject newLayout]> (<[config := ConfigObject c']> h)).
    simpl. repeat split.
    + rewrite lookup_insert_ne, lookup_insert_ne by congruence. exact Hl.
    + apply lookup_insert_eq.
    + rewrite lookup_insert_ne by congruence. apply lookup_insert_eq.
    + rewrite lookup_insert_ne in Hr by congruence. exact Hr.
    + intros l' H1 H2. now rewrite !lookup_insert_ne by congruence.
Qed.

(** [getCategories] returns a new array holding what [BarChart.getCategories]
    computes and changes no other object. *)
Lemma getCategories_frame `{DatasetUtils}
    (a : Args) (series : loc) (s : list Series) (h : heap) :
  h !! series = Some (SeriesArray s) ->
  exists r h',
    Heap.getCategories a series h
      = Some ((r, snd (BarChart.getCategories a s)), h') /\
    h !! r = None /\
    h' !! r = Some (NameArray (fst (BarChart.getCategories a s))) /\
    forall l, l <> r -> h' !! l = h !! l.
Proof.
  intros Hs. unfold Heap.getCategories, BarChart.getCategories.
  unfold mbind at 1, M_bind at 1, readSeries. rewrite Hs.
  unfold mbind at 1, M_bind at 1.
  destruct (alloc_spec (NameArray (getUniqueDatasetValues s "name")) h) as (r & -> & Hr).
  set (cats := getUniqueDatasetValues s "name").
  set (h1 := <[r := NameArray cats]> h).
  assert (H1 : h1 !! r = Some (NameArray cats)) by apply lookup_insert_eq.
  exists r.
  destruct (default (SortKeyword "firstSeries") (categoryAxisSort a))
    as [keyword | comparefn | text].
  - destruct (String.eqb keyword "firstSeries").
    { exists h1. repeat split; auto. intros l Hl. now apply lookup_insert_ne. }
    destruct (String.eqb keyword "asc").
    { exists (<[r := NameArray (sort cats)]> h).
      unfold mbind, M_bind. rewrite (sortInPlace_spec _ _ _ _ H1).
      subst h1. rewrite insert_insert_eq. repeat split; auto.
      - apply lookup_insert_eq.
      - intros l Hl. now apply lookup_insert_ne. }
    destruct (String.eqb keyword "desc").
    { exists (<[r := NameArray (rev (sort cats))]> h).
      unfold mbind, M_bind. rewrite (sortInPlace_spec _ _ _ _ H1).
      rewrite (sortInPlace_spec _ _ (sort cats)) by apply lookup_insert_eq.
      subst h1. rewrite !insert_insert_eq. repeat split; auto.
      - apply lookup_insert_eq.
      - intros l Hl. now apply lookup_insert_ne. }
    exists h1. repeat split; auto. intros l Hl. now apply lookup_insert_ne.
  - exists (<[r := NameArray (sortWith comparefn cats)]> h).
    unfold mbind, M_bind. rewrite (sortInPlace_spec _ _ _ _ H1).
    subst h1. rewrite insert_insert_eq. repeat split; auto.
    + apply lookup_insert_eq.
    + intros l Hl. now apply lookup_insert_ne.
  - exists h1. repeat split; auto. intros l Hl. now apply lookup_insert_ne.
Qed.

(** C9 as stated fails for [addAxisPointer]: with a pointer configured it
    assigns [axisPointer] in the [config] object it was passed, and with the
    pointer type [none] the layout it returns is the object it was given,
    not a new one. *)
Lemma addAxisPointer_config_counterexample :
  (exists r h' o,
     @Heap.addAxisPointer labelCodec
       (contextOf (pointerArgs (Some "line") (Some "bottom") None None))
       1%positive 2%positive axis50x20 X sampleHeap = Some (r, h') /\
     sampleHeap !! 2%positive = Some (ConfigObject []) /\
     h' !! 2%positive = Some (ConfigObject o) /\
     getField "axisPointer" o <> JUndefined /\
     h' !! 2%positive <> sampleHeap !! 2%positive) /\
  @Heap.addAxisPointer labelCodec
    (contextOf (pointerArgs (Some "none") None None None))
    1%positive 2%positive axis50x20 X sampleHeap = Some (1%positive, sampleHeap).
Proof.
  split; [| reflexivity].
  eexists _, _, _. split; [reflexivity |]. split; [reflexivity |].
  split; [vm_compute; reflexivity |]. split.
  - vm_compute. discriminate.
  - vm_compute. discriminate.
Qed.

(** C9, as the code has it.  [resolveStyle] leaves the style object, and
    every other object there is, as it was and returns a new object.
    [addAxisPointer] leaves the layout object as it was; it returns that
    very object when no pointer is configured and a new one otherwise, and
    it may write to the [config] object but to no other.  [getCategories]
    leaves the series array, and every other object, as it was and returns
    a new array. *)
Theorem operations_keep_their_arguments `{StyleCodec} `{DatasetUtils}
    (h : gmap positive cell) :
  (forall (style : positive) (s : gmap string ResolveStyle.value)
          (context : option SizingContext),
     h !! style = Some (StyleObject s) ->
     exists r h',
       Heap.resolveStyle style context h = Some (r, h') /\
       h !! r = None /\
       forall l, is_Some (h !! l) -> h' !! l = h !! l) /\
  (forall (context : Context) (layout config : positive) (l : Layout.t) (c : object)
          (axisInfo : AxisInfo.t) (axis : Axis),
     h !! layout = Some (LayoutObject l) ->
     h !! config = Some (ConfigObject c) ->
     exists r h',
       Heap.addAxisPointer context layout config axisInfo axis h = Some (r, h') /\
       h' !! layout = Some (LayoutObject l) /\
       (if pointerOff (pointerArg (args context) axis)
        then r = layout
        else h !! r = None) /\
       forall l', is_Some (h !! l') -> l' <> config -> h' !! l' = h !! l') /\
  (forall (a : Args) (series : positive) (s : list Series),
     h !! series = Some (SeriesArray s) ->
     exists r warnings h',
       Heap.getCategories a series h = Some ((r, warnings), h') /\
       h !! r = None /\
       forall l, is_Some (h !! l) -> h' !! l = h !! l).
Proof.
  repeat apply conj.
  - intros style s context Hs.
    destruct (resolveStyle_frame style s context h Hs) as (r & h' & E & Hr & _ & Hf).
    exists r, h'. repeat split; auto.
    intros l [v Hv]. apply Hf. congruence.
  - intros context layout config l c axisInfo axis Hl Hc.
    destruct (addAxisPointer_frame context layout config l c axisInfo axis h Hl Hc)
      as (r & h' & E & Hl' & _ & _ & Hr & Hf).
    exists r, h'. repeat split; auto.
    + destruct (pointerOff (pointerArg (args context) axis)); tauto.
    + intros l' [v Hv] Hne.
      destruct (pointerOff (pointerArg (args context) axis)).
      * destruct Hr as [_ ->]. reflexivity.
      * apply Hf; congruence.
  - intros a series s Hs.
    destruct (getCategories_frame a series s h Hs) as (r & h' & E & Hr & _ & Hf).
    exists r, (snd (BarChart.getCategories a s)), h'. repeat split; auto.
    intros l [v Hv]. apply Hf. congruence.
Qed.

Lemma operations_keep_their_arguments_witness :
  (exists r warnings h',
     @Heap.getCategories firstSeenValues noArgs 4%positive sampleHeap
       = Some ((r, warnings), h') /\
     h' !! 4%positive = sampleHeap !! 4%positive) /\
  (exists r h',
     @Heap.addAxisPointer labelCodec
       (contextOf (pointerArgs (Some "line") (Some "top") None None))
       1%positive 2%positive axis50x20 X sampleHeap = Some (r, h') /\
     h' !! 1%positive = Some (LayoutObject box) /\
     sampleHeap !! r = None /\
     h' !! 3%positive = sampleHeap !! 3%positive).
Proof.
  destruct (@operations_keep_their_arguments labelCodec firstSeenValues sampleHeap)
    as (_ & Hp & Hg).
  split.
  - destruct (Hg noArgs 4%positive _ eq_refl) as (r & w & h' & E & _ & Hf).
    exists r, w, h'. split; [exact E |]. apply Hf. eexists. reflexivity.
  - destruct (Hp (contextOf (pointerArgs (Some "line") (Some "top") None None))
                1%positive 2%positive box [] axis50x20 X eq_refl eq_refl)
      as (r & h' & E & Hl & Hr & Hf).
    exists r, h'. split; [exact E |]. split; [exact Hl |]. split; [exact Hr |].
    apply Hf; [eexists; reflexivity | discriminate].
Defined.

End HeapFacts.

(** ** Which strings are dimensions *)

Module PatternFacts.
Import JS JSFacts ResolveStyle NumeralFacts ResolveStyleFacts Patterns.

Lemma is_digit_char (c : ascii) : is_digit c = true -> exists d, c = digit_char d.
Proof.
  destruct c as [[] [] [] [] [] [] [] []]; intros E; try discriminate E;
    first [ now exists d0 | now exists d1 | now exists d2 | now exists d3
          | now exists d4 | now exists d5 | now exists d6 | now exists d7
          | now exists d8 | now exists d9 ].
Qed.

Lemma digits_string_app (a b : list digit) :
  digits_string (a ++ b) = digits_string a +:+ digits_string b.
Proof.
  induction a as [|d a IH]; [reflexivity |].
  simpl. now rewrite app_cons, IH.
Qed.

Lemma lang_digits_inv (s : string) :
  lang (Star Digit) s -> exists ds, s = digits_string ds.
Proof.
  intros H. remember (Star Digit) as r eqn:Er.
  induction H as [| | | | | | r0 | r0 s1 s2 H1 _ H2 IH2]; try discriminate.
  - now exists [].
  - injection Er as ->. destruct (IH2 eq_refl) as [ds ->].
    inversion H1 as [| | c Hc | | | | |]; subst.
    destruct (is_digit_char c Hc) as [d ->]. now exists (d :: ds).
Qed.

(** The body of both patterns accepts the numerals and nothing else. *)
Lemma lang_numberBody_inv (s : string) :
  lang numberBody s -> exists n, s = numeral_string n.
Proof.
  unfold numberBody, Opt, Plus. intros H.
  inversion H as [| | | ? ? sg s1 Hsg H1 | | | |]; subst; clear H.
  inversion H1 as [| | | ? ? si s2 Hi H2 | | | |]; subst; clear H1.
  inversion H2 as [| | | ? ? sd sf Hd Hf | | | |]; subst; clear H2.
  inversion Hi as [| | | ? ? s0 sm H0 Hm | | | |]; subst; clear Hi.
  inversion H0 as [| | c Hc | | | | |]; subst; clear H0.
  destruct (is_digit_char c Hc) as [d ->].
  destruct (lang_digits_inv _ Hm) as [more ->].
  destruct (lang_digits_inv _ Hf) as [fs ->].
  assert (Hneg : exists neg : bool, sg = if neg then "-" else "").
  { inversion Hsg as [| | | | ? ? ? Hm' | ? ? ? He | |]; subst.
    - inversion Hm'; subst. now exists true.
    - inversion He; subst. now exists false. }
  destruct Hneg as [neg ->].
  inversion Hd as [| | | | ? ? ? Hdot | ? ? ? He | |]; subst.
  - inversion Hdot; subst. exists (Numeral neg d more (Some fs)). reflexivity.
  - inversion He; subst. exists (Numeral neg d (more ++ fs) None).
    unfold numeral_string, num_int. cbn [num_neg num_first num_more num_frac frac_string].
    cbn [digits_string]. rewrite digits_string_app. f_equal.
    rewrite app_empty_r, (app_nil_l (digits_string fs)), !app_cons.
    now rewrite app_nil_l.
Qed.

Lemma lang_percents (k : nat) : lang (Star (Chr "%")) (percents k).
Proof.
  induction k as [|k IH]; simpl; [constructor |].
  apply (lang_star_cons (Chr "%") (String "%" "") (percents k)); [constructor | exact IH].
Qed.

Lemma lang_percents_inv (s : string) :
  lang (Star (Chr "%")) s -> exists k, s = percents k.
Proof.
  intros H. remember (Star (Chr "%")) as r eqn:Er.
  induction H as [| | | | | | r0 | r0 s1 s2 H1 _ H2 IH2]; try discriminate.
  - now exists 0.
  - injection Er as ->. destruct (IH2 eq_refl) as [k ->].
    inversion H1; subst. now exists (S k).
Qed.

Lemma pixel_matches_iff (v : string) :
  test isPixelDimension v = true <-> exists n, v = numeral_string n +:+ "px".
Proof.
  split.
  - intros H. apply test_lang in H. unfold isPixelDimension in H.
    inversion H as [| | | ? ? s1 s2 H1 H2 | | | |]; subst; clear H.
    destruct (lang_numberBody_inv _ H1) as [n ->]. exists n. f_equal.
    inversion H2 as [| | | ? ? sp sx Hp Hx | | | |]; subst.
    inversion Hp; subst. inversion Hx; subst. reflexivity.
  - intros [n ->]. apply pixel_token_matches.
Qed.

Lemma percent_matches_iff (v : string) :
  test isPercentDimension v = true <->
  exists n k, v = numeral_string n +:+ percents (S k).
Proof.
  split.
  - intros H. apply test_lang in H. unfold isPercentDimension, Plus in H.
    inversion H as [| | | ? ? s1 s2 H1 H2 | | | |]; subst; clear H.
    destruct (lang_numberBody_inv _ H1) as [n ->]. exists n.
    inversion H2 as [| | | ? ? sp sr Hp Hr | | | |]; subst.
    inversion Hp; subst. destruct (lang_percents_inv _ Hr) as [k ->].
    now exists k.
  - intros (n & k & ->). apply test_lang. apply lang_seq; [apply lang_numberBody |].
    apply (lang_seq (Chr "%") (Star (Chr "%")) (String "%" "") (percents k));
      [constructor | apply lang_percents].
Qed.

(** The two patterns accept exactly this: [isPixelDimension] the numerals
    followed by [px], [isPercentDimension] the numerals followed by one or
    more percent signs. *)
Theorem dimension_patterns_accept (v : string) :
  (test isPixelDimension v = true <-> exists n, v = numeral_string n +:+ "px") /\
  (test isPercentDimension v = true <->
     exists n k, v = numeral_string n +:+ percents (S k)).
Proof. split; [apply pixel_matches_iff | apply percent_matches_iff]. Qed.

(** No string matches both patterns, so the order in which [resolveStyle]
    tries them does not matter. *)
Theorem dimension_patterns_disjoint (v : string) :
  test isPixelDimension v && test isPercentDimension v = false.
Proof.
  destruct (test isPixelDimension v) eqn:Epx; [| reflexivity].
  destruct (test isPercentDimension v) eqn:Epc; [| reflexivity].
  apply pixel_matches_iff in Epx as [n ->].
  apply test_lang in Epc. apply (lang_alphabet _ _ "x"%char) in Epc; [discriminate |].
  rewrite occurs_app. apply orb_true_r.
Qed.

(** A property resolves to a number exactly when its parsed value is a
    numeral followed by [px] or by percent signs; every other value comes
    back as the string it was. *)
Theorem resolveStyle_number_iff_dimension `{StyleCodec}
    (style : gmap string value) (context : option SizingContext)
    (property v : string) :
  parseCssStyleValue (formatCssStyleValue style) !! property = Some v ->
  ((exists x, resolveStyle style context !! property = Some (VNum x)) <->
   (exists n, v = numeral_string n +:+ "px") \/
   (exists n k, v = numeral_string n +:+ percents (S k))) /\
  (resolveStyle style context !! property = Some (VStr v) \/
   exists x, resolveStyle style context !! property = Some (VNum x)).
Proof.
  intros Hp. rewrite resolveStyle_lookup, Hp. simpl. unfold resolveValue.
  pose proof (pixel_matches_iff v) as Hpx. pose proof (percent_matches_iff v) as Hpc.
  destruct (test isPixelDimension v) eqn:Epx.
  - split; [| right; eauto]. split; [intros _; left; now apply Hpx | eauto].
  - destruct (test isPercentDimension v) eqn:Epc.
    + split; [| right; eauto]. split; [intros _; right; now apply Hpc | eauto].
    + split; [| now left]. split.
      * intros [x E]. discriminate E.
      * intros [E | E]; [apply Hpx in E | apply Hpc in E]; discriminate E.
Qed.

Lemma resolveStyle_number_iff_dimension_witness :
  exists x,
    @resolveStyle (constCodec {[ "left" := "-1.5%%%" ]}) ∅ None !! "left" = Some (VNum x).
Proof.
  destruct (@resolveStyle_number_iff_dimension (constCodec {[ "left" := "-1.5%%%" ]})
              ∅ None "left" "-1.5%%%") as [[_ Hnum] _]; [vm_compute; reflexivity |].
  apply Hnum. right. exists (Numeral true d1 [] (Some [d5])), 2. reflexivity.
Defined.

(** [resolveStyle] returns an object with exactly the properties the parser
    produced: it adds none and drops none. *)
Theorem resolveStyle_same_properties `{StyleCodec}
    (style : gmap string value) (context : option SizingContext) :
  dom (resolveStyle style context) = dom (parseCssStyleValue (formatCssStyleValue style)).
Proof.
  apply set_eq. intros k. rewrite !elem_of_dom, resolveStyle_lookup.
  destruct (parseCssStyleValue (formatCssStyleValue style) !! k); simpl.
  - split; eauto.
  - split; intros [? E]; discriminate E.
Qed.

End PatternFacts.

(** ** Chart variants and item colours *)

Module VariantFacts.
Import JS JSArray JSFacts ResolveStyle BarChart Variants.

Lemma getField_setField_eq (k : string) (v : jsval) (o : object) :
  getField k (setField k v o) = v.
Proof.
  induction o as [|[k' v'] o IH]; simpl.
  - now rewrite String.eqb_refl.
  - destruct (String.eqb k k') eqn:E; simpl; [now rewrite String.eqb_refl |].
    now rewrite E.
Qed.

Lemma getField_setField_ne (k k' : string) (v : jsval) (o : object) :
  k <> k' -> getField k' (setField k v o) = getField k' o.
Proof.
  intros Hne. induction o as [|[k0 v0] o IH]; simpl.
  - apply String.eqb_neq in Hne. rewrite String.eqb_sym in Hne. now rewrite Hne.
  - destruct (String.eqb k k0) eqn:E; simpl.
    + apply String.eqb_eq in E as <-.
      assert (E' : String.eqb k' k = false)
        by (apply String.eqb_neq; congruence).
      now rewrite E'.
    + destruct (String.eqb k' k0); [reflexivity | exact IH].
Qed.

Lemma setField_twice (k : string) (v w : jsval) (o : object) :
  setField k v (setField k w o) = setField k v o.
Proof.
  induction o as [|[k' v'] o IH]; simpl.
  - now rewrite String.eqb_refl.
  - destruct (String.eqb k k') eqn:E; simpl; [now rewrite String.eqb_refl |].
    now rewrite E, IH.
Qed.

Lemma getField_absent (k : string) (o : object) :
  k ∉ map fst o -> getField k o = JUndefined.
Proof.
  induction o as [|[k' v'] o IH]; simpl; [reflexivity |].
  rewrite not_elem_of_cons. intros [Hne Hk].
  apply String.eqb_neq in Hne. rewrite Hne. auto.
Qed.

Lemma keys_setField (k k0 : string) (v : jsval) (o : object) :
  k ∈ map fst (setField k0 v o) <-> k = k0 \/ k ∈ map fst o.
Proof.
  induction o as [|[k' v'] o IH]; simpl.
  - rewrite elem_of_cons, elem_of_nil. tauto.
  - destruct (String.eqb_spec k0 k') as [-> | Hne]; simpl.
    + rewrite !elem_of_cons. tauto.
    + rewrite !elem_of_cons, IH. tauto.
Qed.

Lemma NoDup_setField (k0 : string) (v : jsval) (o : object) :
  NoDup (map fst o) -> NoDup (map fst (setField k0 v o)).
Proof.
  induction o as [|[k' v'] o IH]; simpl; intros Hnd.
  - repeat constructor. apply not_elem_of_nil.
  - apply NoDup_cons in Hnd as [Hk Hnd].
    destruct (String.eqb_spec k0 k') as [-> | Hne]; simpl.
    + now apply NoDup_cons.
    + apply NoDup_cons. split; [| auto].
      rewrite keys_setField. intros [E | E]; [congruence | contradiction].
Qed.

Lemma getField_spread_other (k : string) (a b : object) :
  k ∉ map fst b -> getField k (spread a b) = getField k a.
Proof.
  unfold spread. revert a. induction b as [|[k0 v0] b IH]; intros a Hk; simpl.
  - reflexivity.
  - simpl in Hk. apply not_elem_of_cons in Hk as [Hne Hk].
    rewrite IH by assumption. apply getField_setField_ne. congruence.
Qed.

Lemma getField_spread_from (k : string) (a b : object) :
  NoDup (map fst b) -> k ∈ map fst b -> getField k (spread a b) = getField k b.
Proof.
  unfold spread. revert a. induction b as [|[k0 v0] b IH]; intros a Hnd Hk; simpl.
  - simpl in Hk. now apply elem_of_nil in Hk.
  - simpl in Hnd, Hk. apply NoDup_cons in Hnd as [Hk0 Hnd].
    destruct (String.eqb_spec k k0) as [-> | Hne].
    + pose proof (getField_spread_other k0 (setField k0 v0 a) b Hk0) as E.
      unfold spread in E. rewrite E. apply getField_setField_eq.
    + apply elem_of_cons in Hk as [? | Hk]; [contradiction |]. now apply IH.
Qed.

(** *** Variants *)

Ltac split_variant s :=
  destruct (String.eqb_spec s "bar") as [-> | ?];
  [| destruct (String.eqb_spec s "groupedBar") as [-> | ?];
     [| destruct (String.eqb_spec s "stackedBar") as [-> | ?];
        [| destruct (String.eqb_spec s "area") as [-> | ?];
           [| destruct (String.eqb_spec s "stackedArea") as [-> | ?] ] ] ] ].

Ltac other_variant :=
  repeat match goal with
         | H : _ <> _ |- _ => apply String.eqb_neq in H
         end;
  unfold isBarVariant, isAreaVariant, isGroupedVariant, isStackedVariant, includes;
  simpl;
  repeat match goal with
         | H : String.eqb _ _ = false |- _ => rewrite H
         end;
  simpl.

Lemma bar_not_area (variant : option string) :
  isBarVariant variant && isAreaVariant variant = false.
Proof.
  destruct variant as [s|]; [| reflexivity].
  split_variant s; try reflexivity. other_variant. reflexivity.
Qed.

(** No variant is both a bar and an area variant, and none is both grouped
    and stacked; a grouped variant is a bar variant and a stacked one is a
    bar or an area variant; a chart without [variant] is a bar chart. *)
Theorem variants_partition (variant : option string) :
  isBarVariant variant && isAreaVariant variant = false /\
  isGroupedVariant variant && isStackedVariant variant = false /\
  (isGroupedVariant variant = true -> isBarVariant variant = true) /\
  (isStackedVariant variant = true ->
     isBarVariant variant || isAreaVariant variant = true) /\
  isBarVariant None = true.
Proof.
  destruct variant as [s|]; [| repeat split; discriminate].
  split_variant s; try (repeat split; first [reflexivity | discriminate]).
  other_variant. repeat split; first [reflexivity | discriminate].
Qed.

(** The series of a plot is of type [bar] for the bar variants and [line]
    for every other variant; only a [line] series carries [areaStyle],
    [symbol] and [emphasis], and a [bar] series none of them. *)
Theorem seriesBaseConfig_kinds (gridIndex : number) (variant : option string) :
  let c := seriesBaseConfig gridIndex variant in
  getField "type" c = JStr (if isBarVariant variant then "bar" else "line") /\
  (isBarVariant variant = true ->
     getField "areaStyle" c = JUndefined /\ getField "symbol" c = JUndefined /\
     getField "emphasis" c = JUndefined) /\
  (isBarVariant variant = false ->
     getField "symbol" c = JStr "circle" /\ getField "emphasis" c <> JUndefined /\
     (getField "areaStyle" c <> JUndefined <-> isAreaVariant variant = true)) /\
  getField "selectedMode" c = JStr "single".
Proof.
  cbv zeta. unfold seriesBaseConfig.
  pose proof (bar_not_area variant) as Hba.
  destruct (isBarVariant variant) eqn:Eb; destruct (isAreaVariant variant) eqn:Ea;
    try discriminate Hba; cbn;
    repeat split; try reflexivity; try discriminate; intros; try discriminate;
    try reflexivity; try contradiction.
Qed.

Lemma seriesBaseConfig_kinds_witness :
  getField "symbol" (seriesBaseConfig 0 (Some "stackedArea")) = JStr "circle".
Proof.
  destruct (seriesBaseConfig_kinds 0 (Some "stackedArea")) as (_ & _ & Hline & _).
  now destruct (Hline eq_refl) as [Hs _].
Defined.

(** *** [setItemColor] *)

(** When reading the series' name from the colour map gives a truthy
    value, [setItemColor] returns the item with [itemStyle] replaced by
    [{ color }] holding that value and every other property as it was; when
    the map is missing or the read gives [undefined], an empty string or
    another falsy value, it returns the item itself.  The read goes through
    the prototype chain: a series named after a property the map only
    inherits is coloured with the inherited value, so on an object literal
    a series called [toString] or [constructor] gets the built-in function
    as its colour. *)
Theorem setItemColor_itemStyle (colorMap : option ColorMap)
    (item : object) (color : string) :
  (truthy (readColor colorMap color) = true ->
     getField "itemStyle" (setItemColor colorMap item color)
       = JObject [("color", readColor colorMap color)] /\
     forall k, k <> "itemStyle" ->
       getField k (setItemColor colorMap item color) = getField k item) /\
  (truthy (readColor colorMap color) = false ->
     setItemColor colorMap item color = item) /\
  (forall m, colorMap = Some m -> own m !! color = None ->
     readColor colorMap color = inherited m color) /\
  (forall entries, colorMap = Some (objectLiteral entries) ->
     entries !! color = None ->
     includes objectPrototypeFunctions (Some color) = true ->
     getField "itemStyle" (setItemColor colorMap item color)
       = JObject [("color", JBuiltin color)]).
Proof.
  unfold setItemColor. repeat apply conj.
  - intros ->. simpl. split.
    + apply getField_setField_eq.
    + intros k Hk. apply getField_setField_ne. congruence.
  - now intros ->.
  - intros m -> Hown. simpl. now rewrite Hown.
  - intros entries -> Hown Hin. simpl. rewrite Hown. simpl.
    unfold objectPrototype. rewrite Hin. simpl. apply getField_setField_eq.
Qed.

Lemma setItemColor_itemStyle_witness :
  getField "itemStyle"
    (setItemColor (Some (objectLiteral {[ "north" := JStr "#c00" ]}))
       [("name", JStr "pear"); ("value", JNum 3)] "toString")
  = JObject [("color", JBuiltin "toString")] /\
  getField "value"
    (setItemColor (Some (objectLiteral {[ "north" := JStr "#c00" ]}))
       [("name", JStr "pear"); ("value", JNum 3)] "north") = JNum 3.
Proof.
  split.
  - destruct (setItemColor_itemStyle (Some (objectLiteral {[ "north" := JStr "#c00" ]}))
                [("name", JStr "pear"); ("value", JNum 3)] "toString")
      as (_ & _ & _ & Hproto).
    apply (Hproto {[ "north" := JStr "#c00" ]}); vm_compute; reflexivity.
  - destruct (setItemColor_itemStyle (Some (objectLiteral {[ "north" := JStr "#c00" ]}))
                [("name", JStr "pear"); ("value", JNum 3)] "north") as [Hset _].
    destruct Hset as [_ Hother]; [vm_compute; reflexivity |].
    rewrite Hother by discriminate. reflexivity.
Defined.

(** Colouring an item twice with the same map and series is colouring it
    once. *)
Theorem setItemColor_idempotent (colorMap : option ColorMap)
    (item : object) (color : string) :
  setItemColor colorMap (setItemColor colorMap item color) color
  = setItemColor colorMap item color.
Proof.
  unfold setItemColor. destruct (truthy (readColor colorMap color)); simpl;
    [apply setField_twice | reflexivity].
Qed.

(** The data items of a grouped or stacked plot are built as
    [{ ...item, ...setItemColor(colorMap, item, label) }]: property by
    property this is what [setItemColor] returns on its own. *)
Theorem spread_setItemColor (colorMap : option ColorMap)
    (item : object) (color k : string) :
  NoDup (map fst item) ->
  getField k (spread item (setItemColor colorMap item color))
  = getField k (setItemColor colorMap item color).
Proof.
  intros Hnd.
  assert (Hnd' : NoDup (map fst (setItemColor colorMap item color))).
  { unfold setItemColor. destruct (truthy (readColor colorMap color)); simpl;
      [now apply NoDup_setField | assumption]. }
  assert (Hkeys : k ∈ map fst item -> k ∈ map fst (setItemColor colorMap item color)).
  { unfold setItemColor. destruct (truthy (readColor colorMap color)); simpl; [| auto].
    rewrite keys_setField. auto. }
  destruct (decide (k ∈ map fst (setItemColor colorMap item color))) as [Hin | Hout].
  - now apply getField_spread_from.
  - rewrite getField_spread_other by assumption.
    rewrite (getField_absent k (setItemColor colorMap item color)) by assumption.
    apply getField_absent. auto.
Qed.

Lemma spread_setItemColor_witness :
  getField "itemStyle"
    (spread [("name", JStr "pear"); ("value", JNum 3)]
       (setItemColor (Some (objectLiteral {[ "north" := JStr "#c00" ]}))
          [("name", JStr "pear"); ("value", JNum 3)] "north"))
  = JObject [("color", JStr "#c00")].
Proof.
  rewrite (spread_setItemColor (Some (objectLiteral {[ "north" := JStr "#c00" ]}))
             [("name", JStr "pear"); ("value", JNum 3)] "north" "itemStyle").
  - vm_compute. reflexivity.
  - apply NoDup_cons. split; [| apply NoDup_singleton].
    simpl. intros Hin. apply elem_of_cons in Hin as [E | E];
      [discriminate | now apply elem_of_nil in E].
Defined.

End VariantFacts.

(** ** More about [getCategories] *)

Module CategoriesFacts.
Import JS JSArray JSFacts ResolveStyle BarChart Samples MoreSamples Comparators.
Import BarChartFacts.

Lemma insert_HdRel (before : string -> string -> bool) (a b : string) (l : list string) :
  before b a = true ->
  HdRel (fun x y => before x y = true) b l ->
  HdRel (fun x y => before x y = true) b (insert before a l).
Proof.
  intros Hba Hl. destruct l as [|c l]; simpl; [now constructor |].
  destruct (before a c); constructor; [assumption | now inversion Hl].
Qed.

Lemma insert_sorted (before : string -> string -> bool) (a : string) (l : list string) :
  (forall x y, before x y = false -> before y x = true) ->
  Sorted (fun x y => before x y = true) l ->
  Sorted (fun x y => before x y = true) (insert before a l).
Proof.
  intros Htot Hl. induction Hl as [|b l Hs IH Hhd]; simpl.
  - repeat constructor.
  - destruct (before a b) eqn:E.
    + constructor; [now constructor | now constructor].
    + constructor; [exact IH |]. apply insert_HdRel; auto.
Qed.

(** The insertion sort orders its result whenever, of any two elements,
    one may stay in front of the other. *)
Lemma sortBy_sorted (before : string -> string -> bool) (l : list string) :
  (forall x y, before x y = false -> before y x = true) ->
  Sorted (fun x y => before x y = true) (sortBy before l).
Proof.
  intros Htot. induction l as [|a l IH]; simpl; [constructor |].
  now apply insert_sorted.
Qed.

Lemma leb_total_bool (x y : string) : String.leb x y = false -> String.leb y x = true.
Proof. intros E. destruct (String.leb_total x y) as [H | H]; congruence. Qed.

(** With [categoryAxisSort: 'asc'] the categories come back in ascending
    order of their code units, with ['desc'] in descending order. *)
Theorem getCategories_asc_desc_sorted `{DatasetUtils} (a : Args) (series : list Series) :
  (categoryAxisSort a = Some (SortKeyword "asc") ->
     Sorted (fun x y => String.leb x y = true) (fst (getCategories a series))) /\
  (categoryAxisSort a = Some (SortKeyword "desc") ->
     Sorted (fun x y => String.leb y x = true) (fst (getCategories a series))).
Proof.
  unfold getCategories. split; intros ->; simpl.
  - apply sortBy_sorted, leb_total_bool.
  - rewrite rev_alt. apply (Sorted_reverse (fun x y => String.leb x y = true)).
    apply sortBy_sorted, leb_total_bool.
Qed.

Lemma getCategories_asc_desc_sorted_witness :
  Sorted (fun x y => String.leb y x = true)
    (fst (@getCategories firstSeenValues
            {| categoryAxisSort := Some (SortKeyword "desc");
               categoryAxisMaxLabelCount := None;
               xAxisPointer := None; yAxisPointer := None;
               xAxisPointerLabel := None; yAxisPointerLabel := None;
               xAxisTooltip := None; yAxisTooltip := None;
               xAxisFormatter := None; yAxisFormatter := None |}
            [ {| label := None;
                 data := [ {| name := "pear"; value := 1 |};
                           {| name := "apple"; value := 2 |} ] |} ])).
Proof.
  apply (@getCategories_asc_desc_sorted firstSeenValues). reflexivity.
Defined.

(** *** Sorting with a comparator *)

Lemma ltb_zero_not_gt (x : number) : (x <? 0)%float = true -> (0 <? x)%float = false.
Proof.
  rewrite !FloatAxioms.ltb_spec. change (Prim2SF 0) with (S754_zero false).
  destruct (Prim2SF x) as [sg | sg | | sg m e]; try destruct sg; simpl;
    intros E; first [reflexivity | discriminate E].
Qed.

Lemma eqb_zero_not_lt_gt (x : number) :
  PrimFloat.eqb x 0 = true -> (x <? 0)%float = false /\ (0 <? x)%float = false.
Proof.
  rewrite FloatAxioms.eqb_spec, !FloatAxioms.ltb_spec. change (Prim2SF 0) with (S754_zero false).
  destruct (Prim2SF x) as [sg | sg | | sg m e]; try destruct sg; simpl;
    intros E; first [discriminate E | split; reflexivity].
Qed.

(** What [consistentOn] says of any three of the values. *)
Lemma consistentOn_spec (comparefn : string -> string -> number) (l : list string) :
  consistentOn comparefn l = true ->
  forall a b c, a ∈ l -> b ∈ l -> c ∈ l ->
    eqCF comparefn a a = true /\
    (ltCF comparefn a b = true \/ eqCF comparefn a b = true \/ gtCF comparefn a b = true) /\
    (eqCF comparefn a b = true -> eqCF comparefn b a = true) /\
    (eqCF comparefn a b = true -> eqCF comparefn b c = true -> eqCF comparefn a c = true) /\
    (ltCF comparefn a b = true -> ltCF comparefn b c = true -> ltCF comparefn a c = true) /\
    (gtCF comparefn a b = true -> gtCF comparefn b c = true -> gtCF comparefn a c = true).
Proof.
  unfold consistentOn. intros Hc a b c Ha Hb Hd.
  apply list_elem_of_In in Ha, Hb, Hd.
  rewrite forallb_forall in Hc. specialize (Hc a Ha).
  apply andb_true_iff in Hc as [Hrefl Hc].
  rewrite forallb_forall in Hc. specialize (Hc b Hb).
  apply andb_true_iff in Hc as [Hc Htr]. apply andb_true_iff in Hc as [Htot Hsym].
  rewrite forallb_forall in Htr. specialize (Htr c Hd).
  apply andb_true_iff in Htr as [Htr Hgt]. apply andb_true_iff in Htr as [Heq Hlt].
  repeat apply conj.
  - exact Hrefl.
  - apply orb_true_iff in Htot as [Htot | Htot]; [| auto].
    apply orb_true_iff in Htot as [Htot | Htot]; auto.
  - intros E. now rewrite E in Hsym.
  - intros E1 E2. now rewrite E1, E2 in Heq.
  - intros E1 E2. now rewrite E1, E2 in Hlt.
  - intros E1 E2. now rewrite E1, E2 in Hgt.
Qed.

(** For a consistent comparator, of any two values one may stay in front of
    the other. *)
Lemma consistent_total (comparefn : string -> string -> number) (l : list string) :
  consistentOn comparefn l = true ->
  forall x y, x ∈ l -> y ∈ l ->
    gtCF comparefn x y = true -> gtCF comparefn y x = false.
Proof.
  intros Hc x y Hx Hy Hxy.
  destruct (gtCF comparefn y x) eqn:Hyx; [| reflexivity].
  destruct (consistentOn_spec _ _ Hc x y x Hx Hy Hx) as (Hrefl & _ & _ & _ & _ & Hgt).
  specialize (Hgt Hxy Hyx).
  apply eqb_zero_not_lt_gt in Hrefl as [_ Hrefl].
  unfold gtCF in Hgt. congruence.
Qed.

(** For a consistent comparator, "may stay in front of" is transitive. *)
Lemma consistent_trans (comparefn : string -> string -> number) (l : list string) :
  consistentOn comparefn l = true ->
  forall x y z, x ∈ l -> y ∈ l -> z ∈ l ->
    gtCF comparefn x y = false -> gtCF comparefn y z = false ->
    gtCF comparefn x z = false.
Proof.
  intros Hc x y z Hx Hy Hz Hxy Hyz.
  destruct (gtCF comparefn x z) eqn:Hxz; [exfalso | reflexivity].
  assert (Hexcl : forall a b, eqCF comparefn a b = true ->
                    ltCF comparefn a b = false /\ gtCF comparefn a b = false).
  { intros a b. apply eqb_zero_not_lt_gt. }
  assert (Hlg : forall a b, ltCF comparefn a b = true -> gtCF comparefn a b = false).
  { intros a b. apply ltb_zero_not_gt. }
  destruct (consistentOn_spec _ _ Hc x y z Hx Hy Hz)
    as (_ & Txy & _ & Heq & Hlt & _).
  destruct (consistentOn_spec _ _ Hc y z x Hy Hz Hx)
    as (_ & Tyz & Syz & _ & Hlt_yzx & _).
  destruct (consistentOn_spec _ _ Hc z x y Hz Hx Hy)
    as (_ & Tzx & Szx & _ & Hlt_zxy & _).
  destruct (consistentOn_spec _ _ Hc x y x Hx Hy Hx) as (Hrefl & _ & Sxy & _).
  destruct (consistentOn_spec _ _ Hc x z x Hx Hz Hx) as (_ & _ & _ & _ & _ & Hgt_xzx).
  (* [z <CF x], since [x >CF z] *)
  assert (Lzx : ltCF comparefn z x = true).
  { destruct Tzx as [L | [E | G]]; [exact L | |].
    - apply Szx in E. apply Hexcl in E as [_ E]. congruence.
    - specialize (Hgt_xzx Hxz G). apply Hexcl in Hrefl as [_ Hrefl]. congruence. }
  destruct Txy as [Lxy | [Exy | Gxy]]; [| | congruence];
    destruct Tyz as [Lyz | [Eyz | Gyz]]; try congruence.
  - specialize (Hlt Lxy Lyz). apply Hlg in Hlt. congruence.
  - specialize (Hlt_zxy Lzx Lxy). apply Syz in Eyz.
    apply Hexcl in Eyz as [Eyz _]. congruence.
  - specialize (Hlt_yzx Lyz Lzx). apply Sxy in Exy.
    apply Hexcl in Exy as [Exy _]. congruence.
  - specialize (Heq Exy Eyz). apply Hexcl in Heq as [_ Heq]. congruence.
Qed.

Lemma elem_of_insert (before : string -> string -> bool) (a x : string) (l : list string) :
  x ∈ insert before a l <-> x = a \/ x ∈ l.
Proof. now rewrite insert_perm, elem_of_cons. Qed.

Lemma insert_StronglySorted (before : string -> string -> bool) (values : list string)
    (a : string) (l : list string) :
  (forall x y, x ∈ values -> y ∈ values -> before x y = false -> before y x = true) ->
  (forall x y z, x ∈ values -> y ∈ values -> z ∈ values ->
     before x y = true -> before y z = true -> before x z = true) ->
  a ∈ values -> (forall x, x ∈ l -> x ∈ values) ->
  StronglySorted (fun x y => before x y = true) l ->
  StronglySorted (fun x y => before x y = true) (insert before a l).
Proof.
  intros Htot Htr Ha Hsub Hl. induction Hl as [|b l Hs IH Hall]; simpl.
  - repeat constructor.
  - assert (Hb : b ∈ values) by (apply Hsub; now left).
    assert (Hsub' : forall x, x ∈ l -> x ∈ values) by (intros x Hx; apply Hsub; now right).
    destruct (before a b) eqn:E.
    + constructor; [now constructor |]. constructor; [exact E |].
      rewrite Forall_forall in Hall |- *. intros y Hy.
      apply (Htr a b y); auto.
    + constructor; [now apply IH |].
      rewrite Forall_forall in Hall |- *. intros y Hy.
      apply elem_of_insert in Hy as [-> | Hy]; [now apply Htot | now apply Hall].
Qed.

(** The insertion sort orders its result, any two elements of it, whenever
    on the values sorted "may stay in front of" is total and transitive. *)
Lemma sortBy_StronglySorted (before : string -> string -> bool) (values l : list string) :
  (forall x y, x ∈ values -> y ∈ values -> before x y = false -> before y x = true) ->
  (forall x y z, x ∈ values -> y ∈ values -> z ∈ values ->
     before x y = true -> before y z = true -> before x z = true) ->
  (forall x, x ∈ l -> x ∈ values) ->
  StronglySorted (fun x y => before x y = true) (sortBy before l).
Proof.
  intros Htot Htr Hsub. induction l as [|a l IH]; simpl; [constructor |].
  apply (insert_StronglySorted before values); auto.
  - apply Hsub. now left.
  - intros x Hx. apply Hsub. right.
    now rewrite <- (sortBy_perm before l).
  - apply IH. intros x Hx. apply Hsub. now right.
Qed.

Lemma StronglySorted_weaken {A : Type} (R R' : A -> A -> Prop) (l : list A) :
  (forall x y, R x y -> R' x y) -> StronglySorted R l -> StronglySorted R' l.
Proof.
  intros Himp. induction 1 as [|x l Hs IH Hall]; constructor; [exact IH |].
  eapply Forall_impl; [exact Hall | auto].
Qed.

Lemma sortWith_consistent (comparefn : string -> string -> number) (l : list string) :
  consistentOn comparefn l = true ->
  StronglySorted (fun x y => gtCF comparefn x y = false) (sortWith comparefn l).
Proof.
  intros Hc. unfold sortWith.
  pose proof (sortBy_StronglySorted
                (fun a b => negb (0 <? comparefn a b)%float) l l) as Hs.
  eapply StronglySorted_weaken; [| apply Hs].
  - intros x y E. simpl in E. now apply negb_true_iff in E.
  - intros x y Hx Hy E. apply negb_false_iff in E. apply negb_true_iff.
    now apply (consistent_total comparefn l).
  - intros x y z Hx Hy Hz E1 E2. apply negb_true_iff in E1, E2. apply negb_true_iff.
    now apply (consistent_trans comparefn l Hc x y z).
  - auto.
Qed.

(** With a comparator function that is consistent for the categories, they
    come back in the comparator's order: it is not positive on any category
    and a later one.  This is the order [Array.prototype.sort] guarantees;
    for a comparator that is not consistent it guarantees none. *)
Theorem getCategories_comparator_sorted `{DatasetUtils}
    (a : Args) (series : list Series) (comparefn : string -> string -> number) :
  categoryAxisSort a = Some (SortFunction comparefn) ->
  consistentOn comparefn (getUniqueDatasetValues series "name") = true ->
  StronglySorted (fun x y => gtCF comparefn x y = false) (fst (getCategories a series)) /\
  fst (getCategories a series) ≡ₚ getUniqueDatasetValues series "name".
Proof.
  intros Ha Hc. unfold getCategories. rewrite Ha. simpl. split.
  - now apply sortWith_consistent.
  - apply sortBy_perm.
Qed.

Lemma getCategories_comparator_sorted_witness :
  StronglySorted (fun x y => gtCF byCodeUnits x y = false)
    (fst (@getCategories firstSeenValues (sortedBy byCodeUnits)
            [ {| label := None;
                 data := [ {| name := "pear"; value := 1 |};
                           {| name := "apple"; value := 2 |};
                           {| name := "fig"; value := 3 |} ] |} ])).
Proof.
  apply (@getCategories_comparator_sorted firstSeenValues _ _ byCodeUnits);
    [reflexivity | vm_compute; reflexivity].
Defined.

(** A warning is written exactly when [categoryAxisSort] is set to
    something that is neither a function nor one of the strings
    [firstSeries], [asc] and [desc]: another string, or a value of another
    kind such as [null] or a number, which is warned about by its text and
    leaves the categories as they were found.  With [categoryAxisSort]
    absent or [firstSeries] the categories are returned as
    [getUniqueDatasetValues] found them, without a warning. *)
Theorem getCategories_warns_iff_invalid `{DatasetUtils} (a : Args) (series : list Series) :
  (snd (getCategories a series) <> [] <->
   (exists keyword, categoryAxisSort a = Some (SortKeyword keyword) /\
      keyword <> "firstSeries" /\ keyword <> "asc" /\ keyword <> "desc") \/
   (exists text, categoryAxisSort a = Some (SortOther text))) /\
  (forall text, categoryAxisSort a = Some (SortOther text) ->
     getCategories a series =
       (getUniqueDatasetValues series "name",
        ["Invalid 'categoryAxisSort' value: " +:+ text])) /\
  (categoryAxisSort a = None \/ categoryAxisSort a = Some (SortKeyword "firstSeries") ->
   getCategories a series = (getUniqueDatasetValues series "name", [])).
Proof.
  unfold getCategories. split; [| split].
  - destruct (categoryAxisSort a) as [[keyword | comparefn | text]|]; simpl.
    + destruct (String.eqb_spec keyword "firstSeries") as [-> | H1]; simpl.
      { split; [congruence |].
        intros [(k & E & Hk & _) | (t & E)]; congruence. }
      destruct (String.eqb_spec keyword "asc") as [-> | H2]; simpl.
      { split; [congruence |].
        intros [(k & E & _ & Hk & _) | (t & E)]; congruence. }
      destruct (String.eqb_spec keyword "desc") as [-> | H3]; simpl.
      { split; [congruence |].
        intros [(k & E & _ & _ & Hk) | (t & E)]; congruence. }
      split; [| discriminate]. intros _. left. now exists keyword.
    + split; [congruence |]. intros [(k & E & _) | (t & E)]; discriminate E.
    + split; [| discriminate]. intros _. right. now exists text.
    + split; [congruence |]. intros [(k & E & _) | (t & E)]; discriminate E.
  - now intros text ->.
  - now intros [-> | ->].
Qed.

End CategoriesFacts.

(** ** The configuration [addAxisPointer] writes *)

Module AxisPointerFacts.
Import JS JSArray JSFacts ResolveStyle BarChart Samples Variants VariantFacts.
Import BarChartFacts.

Lemma addAxisPointer_snd `{StyleCodec}
    (context : Context) (layout : Layout.t) (config : object)
    (axisInfo : AxisInfo.t) (axis : Axis) :
  let labelStyle :=
    resolveStyle (pointerLabelStyleOf (styles context) axis)
      (Layout.asContext (BarChart.layout context)) in
  let position := default "bottom" (pointerLabelArg (args context) axis) in
  snd (addAxisPointer context layout config axisInfo axis) =
  if pointerOff (pointerArg (args context) axis) then config
  else
    setField "axisPointer"
      (JObject
         (axisPointerConfig (default "" (pointerArg (args context) axis))
            (default (isX axis) (tooltipArg (args context) axis))
            (formatterArg (args context) axis) position
            (resolveStyle (pointerStyleOf (styles context) axis)
               (Layout.asContext (BarChart.layout context)))
            labelStyle axis
            (snd (placeLabel position labelStyle layout axisInfo axis))))
      config.
Proof.
  cbv zeta. unfold addAxisPointer, addAxisPointerBody.
  destruct (pointerOff (pointerArg (args context) axis)); [reflexivity |].
  now destruct (placeLabel _ _ layout axisInfo axis).
Qed.

(** [addAxisPointer] assigns [config.axisPointer] and nothing else: every
    other property of [config] is as it was, and without a pointer
    [config] is not touched at all. *)
Theorem addAxisPointer_config_other_properties `{StyleCodec}
    (context : Context) (layout : Layout.t) (config : object)
    (axisInfo : AxisInfo.t) (axis : Axis) :
  (forall k, k <> "axisPointer" ->
     getField k (snd (addAxisPointer context layout config axisInfo axis))
     = getField k config) /\
  (pointerOff (pointerArg (args context) axis) = true ->
     snd (addAxisPointer context layout config axisInfo axis) = config).
Proof.
  pose proof (addAxisPointer_snd context layout config axisInfo axis) as E.
  cbv zeta in E. rewrite E.
  destruct (pointerOff (pointerArg (args context) axis)).
  - split; reflexivity.
  - split; [| discriminate]. intros k Hk. apply getField_setField_ne. congruence.
Qed.

Lemma addAxisPointer_config_other_properties_witness :
  getField "name"
    (snd (@addAxisPointer labelCodec
            (contextOf (pointerArgs (Some "line") (Some "top") None None))
            box [("name", JStr "x")] axis50x20 X)) = JStr "x".
Proof.
  destruct (@addAxisPointer_config_other_properties labelCodec
              (contextOf (pointerArgs (Some "line") (Some "top") None None))
              box [("name", JStr "x")] axis50x20 X) as [Hk _].
  rewrite Hk by discriminate. reflexivity.
Defined.

Lemma axisPointerConfig_base
    (type : string) (triggerTooltip : bool)
    (formatter : option (ResolveStyle.value -> string)) (labelPosition : string)
    (pointerStyle labelStyle : gmap string ResolveStyle.value)
    (axis : Axis) (margin : option jsval) :
  let ap := axisPointerConfig type triggerTooltip formatter labelPosition
              pointerStyle labelStyle axis margin in
  getField "show" ap = JBool true /\
  getField "type" ap = JStr type /\
  getField "triggerTooltip" ap = JBool triggerTooltip /\
  getField "z" ap = JNum 0 /\
  (getField "lineStyle" ap <> JUndefined <-> type = "line") /\
  (getField "shadowStyle" ap <> JUndefined <-> type = "shadow").
Proof.
  cbv zeta. unfold axisPointerConfig.
  destruct (String.eqb_spec type "line") as [-> | Hl].
  - cbn. repeat split; try reflexivity; try discriminate. intros E. now contradiction E.
  - destruct (String.eqb_spec type "shadow") as [-> | Hs].
    + cbn. repeat split; try reflexivity; try discriminate. intros E. now contradiction E.
    + cbn. repeat split; try reflexivity; try contradiction;
        intros E; now contradiction E.
Qed.

(** With a pointer of type [t] configured, [config.axisPointer] is shown,
    has type [t] and [z] 0, triggers the tooltip as [AxisTooltip] says and
    by default only on the X axis, and carries a [lineStyle] exactly for
    [line] and a [shadowStyle] exactly for [shadow]. *)
Theorem addAxisPointer_pointer_entry `{StyleCodec}
    (context : Context) (layout : Layout.t) (config : object)
    (axisInfo : AxisInfo.t) (axis : Axis) (t : string) :
  pointerArg (args context) axis = Some t ->
  t <> "" -> t <> "none" ->
  exists ap,
    getField "axisPointer" (snd (addAxisPointer context layout config axisInfo axis))
      = JObject ap /\
    getField "show" ap = JBool true /\
    getField "type" ap = JStr t /\
    getField "triggerTooltip" ap
      = JBool (default (isX axis) (tooltipArg (args context) axis)) /\
    getField "z" ap = JNum 0 /\
    (getField "lineStyle" ap <> JUndefined <-> t = "line") /\
    (getField "shadowStyle" ap <> JUndefined <-> t = "shadow").
Proof.
  intros Ht H1 H2.
  pose proof (addAxisPointer_snd context layout config axisInfo axis) as E.
  cbv zeta in E. rewrite E, Ht. simpl.
  apply String.eqb_neq in H1, H2. rewrite H1, H2. simpl.
  eexists. split; [apply getField_setField_eq |].
  apply axisPointerConfig_base.
Qed.

Lemma addAxisPointer_pointer_entry_witness :
  exists ap,
    getField "axisPointer"
      (snd (@addAxisPointer labelCodec
              (contextOf (pointerArgs None None (Some "shadow") (Some "left")))
              box [] axis50x20 Y)) = JObject ap /\
    getField "triggerTooltip" ap = JBool false.
Proof.
  destruct (@addAxisPointer_pointer_entry labelCodec
              (contextOf (pointerArgs None None (Some "shadow") (Some "left")))
              box [] axis50x20 Y "shadow" eq_refl)
    as (ap & E & _ & _ & Htt & _); [discriminate | discriminate |].
  exists ap. split; [exact E | exact Htt].
Defined.

(** The pointer label is hidden exactly for the position [none].  For
    [bottom] its margin is the label style's [marginTop] and for [left] its
    [marginRight], each stored as the style has it: the number, the string,
    or [undefined] when the style has no such entry.  A position that is
    none of [top], [right], [bottom] and [left] sets no margin and leaves
    the layout as it was. *)
Theorem addAxisPointer_label_entry `{StyleCodec}
    (context : Context) (layout : Layout.t) (config : object)
    (axisInfo : AxisInfo.t) (axis : Axis) (t : string) :
  pointerArg (args context) axis = Some t ->
  t <> "" -> t <> "none" ->
  let position := default "bottom" (pointerLabelArg (args context) axis) in
  let labelStyle :=
    resolveStyle (pointerLabelStyleOf (styles context) axis)
      (Layout.asContext (BarChart.layout context)) in
  exists ap label,
    getField "axisPointer" (snd (addAxisPointer context layout config axisInfo axis))
      = JObject ap /\
    getField "label" ap = JObject label /\
    (position = "none" -> label = [("show", JBool false)]) /\
    (position <> "none" ->
       getField "show" label = JUndefined /\
       getField "color" label = prop labelStyle "color") /\
    (position = "bottom" -> getField "margin" label = prop labelStyle "marginTop") /\
    (position = "left" -> getField "margin" label = prop labelStyle "marginRight") /\
    (position = "bottom" -> labelStyle !! "marginTop" = None ->
       getField "margin" label = JUndefined) /\
    (position = "left" -> labelStyle !! "marginRight" = None ->
       getField "margin" label = JUndefined) /\
    (position <> "top" -> position <> "right" ->
     position <> "bottom" -> position <> "left" ->
       getField "margin" label = JUndefined /\
       fst (addAxisPointer context layout config axisInfo axis) = layout).
Proof.
  intros Ht H1 H2. cbv zeta.
  pose proof (addAxisPointer_snd context layout config axisInfo axis) as E.
  cbv zeta in E. rewrite E, addAxisPointer_fst, Ht. clear E. simpl.
  apply String.eqb_neq in H1, H2. rewrite H1, H2. simpl.
  generalize (resolveStyle (pointerLabelStyleOf (styles context) axis)
                (Layout.asContext (BarChart.layout context))) as labelStyle.
  generalize (resolveStyle (pointerStyleOf (styles context) axis)
                (Layout.asContext (BarChart.layout context))) as pointerStyle.
  generalize (default "bottom" (pointerLabelArg (args context) axis)) as position.
  generalize (formatterArg (args context) axis) as formatter.
  intros formatter position pointerStyle labelStyle.
  eexists _, _. split; [apply getField_setField_eq |].
  unfold axisPointerConfig. split; [apply getField_setField_eq |].
  repeat apply conj.
  - intros ->. reflexivity.
  - intros Hn. apply String.eqb_neq in Hn. rewrite Hn.
    destruct (snd (placeLabel position labelStyle layout axisInfo axis)) as [m|];
      destruct formatter; split; reflexivity.
  - intros ->. destruct formatter; reflexivity.
  - intros ->. destruct formatter; reflexivity.
  - intros -> Hm. destruct formatter; cbn; unfold prop; now rewrite Hm.
  - intros -> Hm. destruct formatter; cbn; unfold prop; now rewrite Hm.
  - intros Ht' Hr Hb Hl. apply String.eqb_neq in Ht', Hr, Hb, Hl.
    unfold placeLabel. rewrite Ht', Hr, Hb, Hl. simpl. split; [| reflexivity].
    destruct (String.eqb position "none"); [reflexivity |].
    destruct formatter; reflexivity.
Qed.

Lemma addAxisPointer_label_entry_witness :
  exists ap label,
    getField "axisPointer"
      (snd (@addAxisPointer (constCodec {[ "color" := "#000" ]})
              (contextOf (pointerArgs None None (Some "line") (Some "left")))
              box [] axis50x20 Y)) = JObject ap /\
    getField "label" ap = JObject label /\
    getField "color" label = JStr "#000" /\
    getField "margin" label = JUndefined.
Proof.
  destruct (@addAxisPointer_label_entry (constCodec {[ "color" := "#000" ]})
              (contextOf (pointerArgs None None (Some "line") (Some "left")))
              box [] axis50x20 Y "line" eq_refl)
    as (ap & label & E & El & _ & Hshown & _ & _ & _ & Hleft & _);
    [discriminate | discriminate |].
  exists ap, label. split; [exact E |]. split; [exact El |]. split.
  - destruct Hshown as [_ Hc]; [discriminate |]. rewrite Hc. vm_compute. reflexivity.
  - apply Hleft; vm_compute; reflexivity.
Defined.

Lemma placeLabel_outer_box (position : string)
    (labelStyle : gmap string ResolveStyle.value)
    (layout : Layout.t) (axisInfo : AxisInfo.t) (axis : Axis) :
  let newLayout := fst (placeLabel position labelStyle layout axisInfo axis) in
  Layout.x newLayout = Layout.x layout /\
  Layout.y newLayout = Layout.y layout /\
  Layout.width newLayout = Layout.width layout /\
  Layout.height newLayout = Layout.height layout /\
  Layout.innerX newLayout = Layout.innerX layout /\
  Layout.borderLeftWidth newLayout = Layout.borderLeftWidth layout /\
  Layout.borderRightWidth newLayout = Layout.borderRightWidth layout.
Proof.
  cbv zeta. unfold placeLabel.
  destruct (String.eqb position "top"); [repeat split |].
  destruct (String.eqb position "right"); [repeat split |].
  destruct (String.eqb position "bottom"); [repeat split |].
  destruct (String.eqb position "left"); repeat split.
Qed.

(** Whatever the pointer and the label position, [addAxisPointer] changes
    nothing of the layout but [innerY], [innerWidth] and [innerHeight]: the
    outer box, [innerX] and the border widths are the input's. *)
Theorem addAxisPointer_keeps_outer_box `{StyleCodec}
    (context : Context) (layout : Layout.t) (config : object)
    (axisInfo : AxisInfo.t) (axis : Axis) :
  let newLayout := fst (addAxisPointer context layout config axisInfo axis) in
  Layout.x newLayout = Layout.x layout /\
  Layout.y newLayout = Layout.y layout /\
  Layout.width newLayout = Layout.width layout /\
  Layout.height newLayout = Layout.height layout /\
  Layout.innerX newLayout = Layout.innerX layout /\
  Layout.borderLeftWidth newLayout = Layout.borderLeftWidth layout /\
  Layout.borderRightWidth newLayout = Layout.borderRightWidth layout.
Proof.
  cbv zeta. rewrite addAxisPointer_fst.
  destruct (pointerOff (pointerArg (args context) axis)); [repeat split |].
  apply placeLabel_outer_box.
Qed.

(** *** [computeXAxisInfo] without labels *)

Lemma div_zero (x : number) :
  (x / 0)%float = nan \/ (x / 0)%float = infinity \/ (x / 0)%float = neg_infinity.
Proof.
  assert (E : Prim2SF (x / 0)%float = S754_nan \/
              Prim2SF (x / 0)%float = S754_infinity false \/
              Prim2SF (x / 0)%float = S754_infinity true).
  { rewrite div_spec. change (Prim2SF 0) with (S754_zero false).
    destruct (Prim2SF x) as [sg | sg | | sg m e]; simpl; auto;
      destruct sg; simpl; auto. }
  destruct E as [E | [E | E]]; [left | right; left | right; right];
    apply Prim2SF_inj; rewrite E; reflexivity.
Qed.

(** On a category axis without labels and without
    [categoryAxisMaxLabelCount], [maxLabelWidth] is the remaining width
    divided by zero: [NaN] or an infinity, never a finite width. *)
Theorem computeXAxisInfo_no_labels `{TextMetricsService}
    (a : Args) (layout : Layout.t) (style : gmap string ResolveStyle.value)
    (yAxisInfo : AxisInfo.t) :
  categoryAxisMaxLabelCount a = None ->
  exists w,
    AxisInfo.maxLabelWidth (computeXAxisInfo a layout style [] yAxisInfo false) = Some w /\
    (w = nan \/ w = infinity \/ w = neg_infinity).
Proof.
  intros Ha. unfold computeXAxisInfo. rewrite Ha. simpl.
  eexists. split; [reflexivity |].
  change (Math_min (lengthOf []) (lengthOf [])) with 0%float.
  apply div_zero.
Qed.

Lemma computeXAxisInfo_no_labels_witness :
  exists w,
    AxisInfo.maxLabelWidth
      (@computeXAxisInfo fixedPitchService noArgs box ∅ [] axis50x20 false) = Some w /\
    (w = nan \/ w = infinity \/ w = neg_infinity).
Proof.
  exact (@computeXAxisInfo_no_labels fixedPitchService noArgs box ∅ axis50x20 eq_refl).
Defined.

End AxisPointerFacts.

(** ** Drill paths *)

Module DrillFacts.
Import JS JSArray ResolveStyle BarChart Drill.

Lemma drill_snoc (seriesData : list Node) (title : option string)
    (drillPath : list nat) (i : nat) :
  drill seriesData title (drillPath ++ [i])
  = drill seriesData title drillPath ≫= fun l => drillStep l i.
Proof. unfold drill. now rewrite foldl_app. Qed.

(** The drill paths the two handlers produce are paths [createContextData]
    can follow: the empty path is; when the [dblclick] handler runs on the
    level a followable path leads to, the path it leaves is followable, and
    a pushed index leads to the series and the label of the node clicked;
    popping the last index of a followable path leaves a followable path. *)
Theorem drill_paths_stay_followable (seriesData : list Node) (title : option string) :
  drill seriesData title [] = Some (Some seriesData, title) /\
  (forall drillPath series t i drillPath',
     drill seriesData title drillPath = Some (Some series, t) ->
     onDblClick (Some series) drillPath i = Some drillPath' ->
     followable seriesData title drillPath' /\
     forall node below, series !! i = Some node -> nodeSeries node = Some below ->
       drill seriesData title drillPath' = Some (Some below, nodeLabel node)) /\
  (forall drillPath,
     followable seriesData title drillPath ->
     followable seriesData title (onDrillUp drillPath)).
Proof.
  repeat apply conj.
  - reflexivity.
  - intros drillPath series t i drillPath' Hd Hc. unfold onDblClick in Hc. simpl in Hc.
    destruct (series !! i) as [node|] eqn:Hn; [| discriminate]. simpl in Hc.
    destruct (nodeSeries node) as [below|] eqn:Hb; injection Hc as <-.
    + assert (E : drill seriesData title (drillPath ++ [i])
                  = Some (Some below, nodeLabel node)).
      { rewrite drill_snoc, Hd. simpl. unfold drillStep. simpl. rewrite Hn. simpl.
        now rewrite Hb. }
      split; [now exists below, (nodeLabel node) |].
      intros node' below' Hn' Hb'. injection Hn' as <-. congruence.
    + split; [now exists series, t |]. intros node' below' Hn' Hb'. congruence.
  - intros drillPath (series & t & Hd). unfold onDrillUp.
    induction drillPath as [|i0 rest _] using rev_ind; [now exists series, t |].
    rewrite removelast_last. rewrite drill_snoc in Hd. unfold followable.
    destruct (drill seriesData title rest) as [[[s'|] t']|]; try discriminate Hd.
    now exists s', t'.
Qed.

Lemma drill_paths_stay_followable_witness :
  followable
    [MkNode (Some "fruit") [] (Some [MkNode (Some "pear") [] None])] (Some "all") [0].
Proof.
  destruct (drill_paths_stay_followable
              [MkNode (Some "fruit") [] (Some [MkNode (Some "pear") [] None])]
              (Some "all")) as (H0 & Hpush & _).
  destruct (Hpush [] _ _ 0 [0] H0 eq_refl) as [Hf _]. exact Hf.
Defined.

(** The next step of a drill path throws exactly when the path so far
    throws, leads to a level without series, or the index is not below the
    number of series of the level. *)
Theorem drill_step_throws_iff (seriesData : list Node) (title : option string)
    (drillPath : list nat) (i : nat) :
  drill seriesData title (drillPath ++ [i]) = None <->
  drill seriesData title drillPath = None \/
  (exists t, drill seriesData title drillPath = Some (None, t)) \/
  (exists series t, drill seriesData title drillPath = Some (Some series, t) /\
                    length series <= i).
Proof.
  rewrite drill_snoc.
  destruct (drill seriesData title drillPath) as [[[series|] t]|]; simpl.
  - unfold drillStep. simpl. destruct (series !! i) as [node|] eqn:Hn; simpl.
    + split; [discriminate |]. intros [E | [[t' E] | (s' & t' & E & Hle)]];
        try discriminate E. injection E as <- <-.
      apply lookup_lt_Some in Hn. lia.
    + split; [| reflexivity]. intros _. right. right.
      exists series, t. split; [reflexivity | now apply lookup_ge_None].
  - split; [| reflexivity]. intros _. right. left. now exists t.
  - split; [| reflexivity]. intros _. now left.
Qed.

End DrillFacts.

(** ** Styles, axes and pointers together *)

Module CompositionFacts.
Import JS JSArray JSFacts ResolveStyle NumeralFacts ResolveStyleFacts.
Import BarChart Samples BarChartFacts AxisPointerFacts.

Lemma resolveStyle_pixel_value `{StyleCodec}
    (style : gmap string ResolveStyle.value) (context : option SizingContext)
    (property : string) (n : numeral) :
  parseCssStyleValue (formatCssStyleValue style) !! property
    = Some (numeral_string n +:+ "px") ->
  num (resolveStyle style context) property = numeral_value n.
Proof.
  intros Hp. unfold num. rewrite resolveStyle_lookup, Hp. simpl. unfold resolveValue.
  rewrite pixel_token_matches.
  change 2 with (String.length "px"). now rewrite slice_end_app, parseFloat_numeral.
Qed.

Lemma resolveStyle_percent_value `{StyleCodec}
    (style : gmap string ResolveStyle.value) (context : option SizingContext)
    (property : string) (p : numeral) :
  parseCssStyleValue (formatCssStyleValue style) !! property
    = Some (numeral_string p +:+ "%") ->
  num (resolveStyle style context) property =
    (numeral_value p / 100 *
     default 1 (context ≫= if endsWith property "Top" || endsWith property "Bottom"
                            then ResolveStyle.height else ResolveStyle.width))%float.
Proof.
  intros Hp. unfold num. rewrite resolveStyle_lookup, Hp. simpl. unfold resolveValue.
  rewrite percent_token_not_pixel, percent_token_matches.
  unfold resolvePercentDimension.
  change 1 with (String.length "%") at 1 2.
  rewrite slice_end_app, toNumber_numeral.
  now destruct (endsWith property "Top" || endsWith property "Bottom").
Qed.

(** The pointer label's style is resolved against [context.layout], not
    against the layout passed in: with the label at the bottom, a
    [marginTop] of [p%] takes [p / 100] of the height of [context.layout]
    off the inner height, and a [marginTop] of [n px] takes [n] off. *)
Theorem addAxisPointer_bottom_margin `{StyleCodec}
    (context : Context) (layout : Layout.t) (config : object)
    (axisInfo : AxisInfo.t) (axis : Axis) (t : string) (n : numeral) :
  pointerArg (args context) axis = Some t ->
  t <> "" -> t <> "none" ->
  default "bottom" (pointerLabelArg (args context) axis) = "bottom" ->
  let tokens :=
    parseCssStyleValue (formatCssStyleValue (pointerLabelStyleOf (styles context) axis)) in
  let newLayout := fst (addAxisPointer context layout config axisInfo axis) in
  (tokens !! "marginTop" = Some (numeral_string n +:+ "%") ->
     Layout.innerHeight newLayout =
       (Layout.innerHeight layout
        - numeral_value n / 100 * Layout.height (BarChart.layout context))%float) /\
  (tokens !! "marginTop" = Some (numeral_string n +:+ "px") ->
     Layout.innerHeight newLayout = (Layout.innerHeight layout - numeral_value n)%float).
Proof.
  intros Ht H1 H2 Hpos. cbv zeta. rewrite addAxisPointer_fst, Ht, Hpos. simpl.
  apply String.eqb_neq in H1, H2. rewrite H1, H2. simpl.
  split; intros Htok.
  - now rewrite (resolveStyle_percent_value _ _ "marginTop" n Htok).
  - now rewrite (resolveStyle_pixel_value _ _ "marginTop" n Htok).
Qed.

Lemma addAxisPointer_bottom_margin_witness :
  Layout.innerHeight
    (fst (@addAxisPointer (constCodec {[ "marginTop" := "10%" ]})
            (contextOf (pointerArgs (Some "line") None None None))
            (Layout.mk 0 0 200 100 0 0 200 100 0 0) [] axis50x20 X)) = 70%float.
Proof.
  destruct (@addAxisPointer_bottom_margin (constCodec {[ "marginTop" := "10%" ]})
              (contextOf (pointerArgs (Some "line") None None None))
              (Layout.mk 0 0 200 100 0 0 200 100 0 0) [] axis50x20 X "line"
              (Numeral false d1 [d0] None) eq_refl)
    as [Hpc _]; [discriminate | discriminate | reflexivity |].
  rewrite Hpc by (vm_compute; reflexivity). vm_compute. reflexivity.
Defined.

(** In [generatePlotConfig], a Y axis style whose left and right margins
    are [a px] and [b px] makes the Y axis as wide as its widest label plus
    [a] and [b], and the X axis as wide as the inner width the Y pointer
    left, less that Y axis width and the layout's two border widths. *)
Theorem axisInfos_widths `{StyleCodec} `{TextMetricsService} `{NumberToString}
    (context : Context) (layout : Layout.t) (categories valueTexts : list string)
    (maxValue : number) (isHorizontal : bool) (a b : numeral) :
  let tokens := parseCssStyleValue (formatCssStyleValue (yAxisStyle (styles context))) in
  tokens !! "marginLeft" = Some (numeral_string a +:+ "px") ->
  tokens !! "marginRight" = Some (numeral_string b +:+ "px") ->
  let infos := axisInfos context layout categories valueTexts maxValue isHorizontal in
  let yStyle :=
    resolveStyle (yAxisStyle (styles context)) (Layout.asContext (BarChart.layout context)) in
  let yLabels := if isHorizontal then categories else valueTexts in
  AxisInfo.width (fst infos) =
    (TextMetrics.width (computeMaxTextMetrics yLabels yStyle None)
     + numeral_value a + numeral_value b)%float /\
  AxisInfo.width (snd infos) =
    (Layout.innerWidth (fst (addAxisPointer context layout [] (fst infos) Y))
     - AxisInfo.width (fst infos)
     - Layout.borderLeftWidth layout - Layout.borderRightWidth layout)%float.
Proof.
  intros tokens Ha Hb. cbv zeta. unfold axisInfos. simpl. split.
  - now rewrite (resolveStyle_pixel_value _ _ "marginLeft" a Ha),
                (resolveStyle_pixel_value _ _ "marginRight" b Hb).
  - rewrite !addAxisPointer_fst.
    destruct (pointerOff (pointerArg (args context) Y)); [reflexivity |].
    match goal with
    | |- context [placeLabel ?p ?ls layout ?ai Y] =>
        destruct (placeLabel_outer_box p ls layout ai Y) as (_ & _ & _ & _ & _ & Hbl & Hbr)
    end.
    now rewrite Hbl, Hbr.
Qed.

Lemma axisInfos_widths_witness :
  AxisInfo.width
    (snd (@axisInfos labelCodec fixedPitchService threeDigits
            (contextOf noArgs) box ["a"; "b"] ["10"; "1000"] 100%float false))
  = 364%float.
Proof.
  destruct (@axisInfos_widths labelCodec fixedPitchService threeDigits
              (contextOf noArgs) box ["a"; "b"] ["10"; "1000"] 100%float false
              (Numeral false d4 [] None) (Numeral false d4 [] None))
    as [_ Hx]; [vm_compute; reflexivity | vm_compute; reflexivity |].
  rewrite Hx. vm_compute. reflexivity.
Defined.

End CompositionFacts.

(** ** The two pointer steps on the store *)

Module PlotLayoutFacts.
Import JS JSArray ResolveStyle BarChart Samples.
Import Heap HeapFacts PlotLayout.

(** Run on a layout object and two different config objects, the two
    pointer steps leave the layout object as it was; the Y config gets what
    the Y step alone writes and the X config what the X step writes,
    computed from the layout the Y step returned; the layout returned holds
    the fields of the X step applied to the result of the Y step; and no
    other object that existed is changed. *)
Theorem addAxisPointers_on_store `{StyleCodec} `{TextMetricsService}
    (context : Context) (layout yAxisConfig xAxisConfig : positive)
    (l : Layout.t) (cy cx : object)
    (yAxisInfo : AxisInfo.t) (xAxisStyle : gmap string ResolveStyle.value)
    (xLabels : list string) (isHorizontal : bool) (h : gmap positive cell) :
  h !! layout = Some (LayoutObject l) ->
  h !! yAxisConfig = Some (ConfigObject cy) ->
  h !! xAxisConfig = Some (ConfigObject cx) ->
  yAxisConfig <> xAxisConfig ->
  let l1 := fst (BarChart.addAxisPointer context l cy yAxisInfo Y) in
  let xAxisInfo :=
    computeXAxisInfo (args context) l1 xAxisStyle xLabels yAxisInfo isHorizontal in
  exists r h',
    addAxisPointers context layout yAxisConfig xAxisConfig yAxisInfo xAxisStyle
      xLabels isHorizontal h = Some ((r, xAxisInfo), h') /\
    h' !! layout = Some (LayoutObject l) /\
    h' !! yAxisConfig
      = Some (ConfigObject (snd (BarChart.addAxisPointer context l cy yAxisInfo Y))) /\
    h' !! xAxisConfig
      = Some (ConfigObject (snd (BarChart.addAxisPointer context l1 cx xAxisInfo X))) /\
    h' !! r = Some (LayoutObject (fst (BarChart.addAxisPointer context l1 cx xAxisInfo X))) /\
    forall l', is_Some (h !! l') -> l' <> yAxisConfig -> l' <> xAxisConfig ->
      h' !! l' = h !! l'.
Proof.
  intros Hl Hcy Hcx Hne l1 xAxisInfo.
  destruct (addAxisPointer_frame context layout yAxisConfig l cy yAxisInfo Y h Hl Hcy)
    as (r1 & h1 & E1 & Hl1 & Hr1 & Hcy1 & Hfresh1 & Hf1).
  fold l1 in Hr1.
  assert (Hr1x : r1 <> xAxisConfig).
  { destruct (pointerOff (pointerArg (args context) Y)).
    - destruct Hfresh1 as [-> _]. congruence.
    - congruence. }
  assert (Hr1y : r1 <> yAxisConfig) by congruence.
  assert (Hcx1 : h1 !! xAxisConfig = Some (ConfigObject cx)).
  { rewrite Hf1 by congruence. exact Hcx. }
  destruct (addAxisPointer_frame context r1 xAxisConfig l1 cx xAxisInfo X h1 Hr1 Hcx1)
    as (r2 & h2 & E2 & Hl2 & Hr2 & Hcx2 & Hfresh2 & Hf2).
  exists r2, h2.
  assert (Hkeep : forall l', is_Some (h1 !! l') -> l' <> xAxisConfig -> h2 !! l' = h1 !! l').
  { intros l' [v Hv] Hx. destruct (pointerOff (pointerArg (args context) X)).
    - destruct Hfresh2 as [_ ->]. reflexivity.
    - apply Hf2; congruence. }
  assert (Hkeep1 : forall l', is_Some (h !! l') -> l' <> yAxisConfig -> h1 !! l' = h !! l').
  { intros l' [v Hv] Hy. destruct (pointerOff (pointerArg (args context) Y)).
    - destruct Hfresh1 as [_ ->]. reflexivity.
    - apply Hf1; congruence. }
  repeat split.
  - unfold addAxisPointers, mbind, M_bind, readLayout, mret, M_ret.
    rewrite E1, Hr1. fold xAxisInfo. now rewrite E2.
  - rewrite Hkeep; [exact Hl1 | rewrite Hl1; eauto | congruence].
  - rewrite Hkeep; [exact Hcy1 | rewrite Hcy1; eauto | congruence].
  - exact Hcx2.
  - exact Hr2.
  - intros l' Hsome Hy Hx. rewrite Hkeep.
    + now apply Hkeep1.
    + rewrite Hkeep1 by assumption. exact Hsome.
    + exact Hx.
Qed.

Lemma addAxisPointers_on_store_witness :
  exists r xAxisInfo h',
    @addAxisPointers labelCodec fixedPitchService
      (contextOf (pointerArgs (Some "line") (Some "top") (Some "line") (Some "right")))
      1%positive 2%positive 5%positive axis50x20 ∅ ["a"; "b"] false
      (<[5%positive := ConfigObject []]> sampleHeap) = Some ((r, xAxisInfo), h') /\
    h' !! 1%positive = Some (LayoutObject box).
Proof.
  destruct (@addAxisPointers_on_store labelCodec fixedPitchService
              (contextOf (pointerArgs (Some "line") (Some "top") (Some "line") (Some "right")))
              1%positive 2%positive 5%positive box [] [] axis50x20 ∅ ["a"; "b"] false
              (<[5%positive := ConfigObject []]> sampleHeap))
    as (r & h' & E & Hl & _); try (vm_compute; reflexivity); [discriminate |].
  eexists r, _, h'. split; [exact E | exact Hl].
Defined.

End PlotLayoutFacts.
